(** * JupyterHub scopes: a shallow embedding of [jupyterhub/scopes.py]

    The module decides whether the scopes granted to a caller cover a
    requested scope for the resource an API request targets.  The embedding
    follows the Python source function by function:

    - [get_user_scopes]: the expansion of the user metascope;
    - [parse_scopes]: the parser of scope strings into the scope model;
    - [_needs_scope_expansion], [_check_user_in_expanded_scope],
      [_get_scope_filter], [_check_scope]: the decision procedure.

    The decorator [needs_scope], which binds the arguments of a handler
    method to the keyword arguments of [_check_scope], is not embedded.

    Python dictionaries whose iteration order the code observes (the keyword
    arguments of [_check_scope], a filter map) are insertion-ordered
    association lists; the scope model, which is only ever looked up by key,
    is a [gmap].  Exceptions are values of an error monad. *)

From Stdlib Require Import Ascii.
From stdpp Require Import gmap strings list fin_maps.

Open Scope string_scope.
Open Scope list_scope.

(** ** Exceptions and the error monad *)

Inductive exn : Type :=
  | KeyError (key : string)
  | StopIteration
  | AttributeError (msg : string)
  | HTTPError (status_code : Z) (log_message : string).

Inductive result (A : Type) : Type :=
  | Ok (a : A)
  | Raise (e : exn).

Arguments Ok {A} a.
Arguments Raise {A} e.

#[global] Instance result_ret : MRet result := λ A a, Ok a.

#[global] Instance result_bind : MBind result := λ A B f r,
  match r with
  | Ok a => f a
  | Raise e => Raise e
  end.

(** ** Python values and strings *)

(** A keyword argument is a resource name taken from the request, or [None]
    (the value [needs_scope] stores under the enumeration marker). *)
Inductive pyval : Type :=
  | PyNone
  | PyStr (s : string).

#[global] Instance pyval_eq_dec : EqDecision pyval.
Proof. solve_decision. Defined.

(** [str(v)], as ["{}".format(v)] renders it. *)
Definition py_str (v : pyval) : string :=
  match v with
  | PyNone => "None"
  | PyStr s => s
  end.

(** [v in l] for a list of strings [l]. *)
Definition py_in (v : pyval) (l : list string) : bool :=
  match v with
  | PyNone => false
  | PyStr s => bool_decide (s ∈ l)
  end.

(** [s.partition(sep)] for a one-character separator: the text before the
    first separator, the separator, the text after it; [(s, "", "")] when the
    separator does not occur. *)
Fixpoint partition (sep : ascii) (s : string) : string * string * string :=
  match s with
  | EmptyString => ("", "", "")
  | String c rest =>
      if decide (c = sep) then ("", String sep "", rest)
      else
        let '(head, mid, tail) := partition sep rest in
        (String c head, mid, tail)
  end.

(** [sep in s]. *)
Fixpoint contains (sep : ascii) (s : string) : bool :=
  match s with
  | EmptyString => false
  | String c rest => if decide (c = sep) then true else contains sep rest
  end.

(** ** Insertion-ordered dictionaries *)

Section dict.
Context {V : Type}.

Definition dict : Type := list (string * V).

(** [d.get(k)]: [None] stands for a missing key. *)
Fixpoint dict_get (d : dict) (k : string) : option V :=
  match d with
  | [] => None
  | (k', v) :: rest => if decide (k' = k) then Some v else dict_get rest k
  end.

(** [k in d] *)
Definition dict_in (k : string) (d : dict) : bool :=
  match dict_get d k with
  | Some _ => true
  | None => false
  end.

(** [d[k]] *)
Definition dict_getitem (d : dict) (k : string) : result V :=
  match dict_get d k with
  | Some v => Ok v
  | None => Raise (KeyError k)
  end.

(** [d[k] = v]: an existing key keeps its position, a new key goes last. *)
Fixpoint dict_set (d : dict) (k : string) (v : V) : dict :=
  match d with
  | [] => [(k, v)]
  | (k', v') :: rest =>
      if decide (k' = k) then (k, v) :: rest
      else (k', v') :: dict_set rest k v
  end.

Definition dict_keys (d : dict) : list string := d.*1.
End dict.

Arguments dict V : clear implicits.

(** ** The scope model *)

(** [class Scope(Enum): ALL = True].  The value of a scope name is the
    marker [Scope.ALL] or a filter map from a filter key to the list of the
    values granted for it. *)
Inductive scope_value : Type :=
  | ALL
  | Filtered (sub_scope : dict (list string)).

(** ** [get_user_scopes] *)

Definition user_scope_list : list string :=
  [ "users"; "users:name"; "users:groups"; "users:activity";
    "users:servers"; "users:tokens" ].

Definition get_user_scopes (name : string) : gset string :=
  let scope_list := user_scope_list in
  let scope_list := scope_list ++ ((λ scope, "read:" +:+ scope) <$> scope_list) in
  list_to_set ((λ scope, scope +:+ "!user=" +:+ name) <$> scope_list).

(** ** [parse_scopes] *)

(** [parsed_scopes[k]] on the scope model. *)
Definition model_getitem (parsed_scopes : gmap string scope_value) (k : string)
  : result scope_value :=
  match parsed_scopes !! k with
  | Some v => Ok v
  | None => Raise (KeyError k)
  end.

(** One turn of the loop of [parse_scopes]. *)
Definition parse_scope (parsed_scopes : gmap string scope_value) (scope : string)
  : result (gmap string scope_value) :=
  let '(base_scope, _, filter_) := partition "!" scope in
  let parsed_scopes :=
    if decide (filter_ = "") then <[base_scope := ALL]> parsed_scopes
    else if decide (parsed_scopes !! base_scope = None)
         then <[base_scope := Filtered []]> parsed_scopes
         else parsed_scopes in
  current ← model_getitem parsed_scopes base_scope;
  match current with
  | ALL => Ok parsed_scopes
  | Filtered sub_scope =>
      let '(key, _, val) := partition "=" filter_ in
      let sub_scope :=
        if dict_in key sub_scope then sub_scope else dict_set sub_scope key [] in
      values ← dict_getitem sub_scope key;
      Ok (<[base_scope := Filtered (dict_set sub_scope key (values ++ [val]))]>
            parsed_scopes)
  end.

Fixpoint parse_scopes_from (parsed_scopes : gmap string scope_value)
    (scope_list : list string) : result (gmap string scope_value) :=
  match scope_list with
  | [] => Ok parsed_scopes
  | scope :: rest =>
      parsed_scopes ← parse_scope parsed_scopes scope;
      parse_scopes_from parsed_scopes rest
  end.

Definition parse_scopes (scope_list : list string)
  : result (gmap string scope_value) :=
  parse_scopes_from ∅ scope_list.

(** ** The collaborators of the decision procedure *)

(** The part of the [orm] module that the decision procedure reads: a user
    has groups and a group has a name.  The module itself is outside this
    file; its queries are the fields of [Session] below. *)
Module orm.
Record Group : Type := { name : string }.
Record User : Type := { groups : list Group }.

(** The two queries [_get_scope_filter] runs on the database session:
    the names of the rows of a resource kind whose name is among the given
    ones, and the names of the users that belong to one of the given
    groups. *)
Record Session : Type := {
  query_names_in : string → list string → list string;
  query_users_in_groups : list string → list string;
}.
End orm.

(** What [_check_scope] reads of the API handler. *)
Record handler : Type := {
  parsed_scopes : gmap string scope_value;
  find_user : pyval → option orm.User;
  db : orm.Session;
}.

(** What [_check_scope] returns: [True], [False], or the set of names of
    the enumeration mode. *)
Inductive scope_result : Type :=
  | RBool (b : bool)
  | RSet (scope_filter : gset string).

Definition not_found : exn :=
  HTTPError 404 "No access to resources or resources not found".

(** ** The decision procedure *)

Definition _needs_scope_expansion (filter_ : string) (filter_value : pyval)
    (sub_scope : dict (list string)) : bool :=
  if negb (bool_decide (filter_ = "user") && dict_in "group" sub_scope) then false
  else
    match dict_get sub_scope "user" with
    | Some users => negb (py_in filter_value users)
    | None => true
    end.

Definition _check_user_in_expanded_scope (api_handler : handler)
    (user_name : pyval) (scope_group_names : list string) : result bool :=
  match find_user api_handler user_name with
  | None => Raise not_found
  | Some user =>
      let group_names : gset string := list_to_set (orm.name <$> orm.groups user) in
      Ok (bool_decide (list_to_set scope_group_names ∩ group_names ≠ ∅))
  end.

Definition scope_translator : dict string :=
  [ ("read:users", "users"); ("read:services", "services");
    ("read:groups", "groups") ].

Definition _get_scope_filter (db : orm.Session) (req_scope : string)
    (sub_scope : dict (list string)) : result (gset string) :=
  if negb (dict_in req_scope scope_translator)
  then Raise (AttributeError "Internal error: inconsistent scope situation")
  else
    kind ← dict_getitem scope_translator req_scope;
    sub_scope_values ←
      match sub_scope with
      | [] => Raise StopIteration
      | (_, values) :: _ => Ok values
      end;
    let scope_filter : gset string :=
      list_to_set (orm.query_names_in db kind sub_scope_values) in
    if dict_in "group" sub_scope && bool_decide (kind = "users") then
      group_names ← dict_getitem sub_scope "group";
      Ok (scope_filter ∪ list_to_set (orm.query_users_in_groups db group_names))
    else Ok scope_filter.

(** The keyword arguments after the composition of the server name. *)
Definition compose_server (kwargs : dict pyval) : dict pyval :=
  match dict_get kwargs "user", dict_get kwargs "server" with
  | Some user, Some server =>
      dict_set kwargs "server" (PyStr (py_str user +:+ "/" +:+ py_str server))
  | _, _ => kwargs
  end.

(** [filter_ in sub_scope and filter_value in sub_scope[filter_]] *)
Definition filter_matches (sub_scope : dict (list string)) (filter_ : string)
    (filter_value : pyval) : bool :=
  match dict_get sub_scope filter_ with
  | Some values => py_in filter_value values
  | None => false
  end.

(** The loop over [kwargs.items()] and the [raise] that follows it. *)
Fixpoint check_filters (api_handler : handler) (sub_scope : dict (list string))
    (items : list (string * pyval)) : result scope_result :=
  match items with
  | [] => Raise not_found
  | (filter_, filter_value) :: rest =>
      if filter_matches sub_scope filter_ filter_value then Ok (RBool true)
      else if _needs_scope_expansion filter_ filter_value sub_scope then
        group_names ← dict_getitem sub_scope "group";
        found ← _check_user_in_expanded_scope api_handler filter_value group_names;
        if found : bool then Ok (RBool true)
        else check_filters api_handler sub_scope rest
      else check_filters api_handler sub_scope rest
  end.

Definition _check_scope (api_handler : handler) (req_scope : string)
    (kwargs : dict pyval) : result scope_result :=
  let kwargs := compose_server kwargs in
  match parsed_scopes api_handler !! req_scope with
  | None => Ok (RBool false)
  | Some ALL => Ok (RBool true)
  | Some (Filtered sub_scope) =>
      if dict_in "scope_filter" kwargs then
        scope_filter ← _get_scope_filter (db api_handler) req_scope sub_scope;
        Ok (RSet scope_filter)
      else
        match kwargs with
        | [] => Ok (RBool false)
        | _ :: _ => check_filters api_handler sub_scope kwargs
        end
  end.

(** The outcomes of a check, as the specification names them. *)
Definition Allow : result scope_result := Ok (RBool true).
Definition Deny : result scope_result := Ok (RBool false).
Definition NotFoundOrForbidden : result scope_result := Raise not_found.

(** ** [needs_scope] *)

(** The decorator reads more of the handler than [_check_scope] does: the
    raw scopes of the caller and the path of the request ([None] when
    [self.request.path] raises [AttributeError], which the decorator
    catches). *)
Record decorated_handler : Type := {
  handler_of : handler;
  raw_scopes : list string;
  request_path : option string;
}.

(** The call [func(self, *args, **kwargs)] that ends an authorised request:
    the arguments are those of the request, except that
    [kwargs['scope_filter']] has been set to the resolved set of names when
    the check returned one. *)
Inductive invocation : Type :=
  | Invoke (scope_filter : option (gset string)).

(** The elements of the set literal [{'user', 'server', 'group', 'service'}];
    the order in which Python iterates over it is an argument of the
    embedding. *)
Definition resources : list string := ["user"; "server"; "group"; "service"].

(** The loop that fills [s_kwargs] from the bound arguments of the method
    ([bound_sig.arguments], after [apply_defaults]). *)
Fixpoint bind_resources (arguments : dict pyval) (iteration : list string)
    (s_kwargs : dict pyval) : dict pyval :=
  match iteration with
  | [] => s_kwargs
  | resource :: rest =>
      let resource_name := resource +:+ "_name" in
      let s_kwargs :=
        match dict_get arguments resource_name with
        | Some resource_value => dict_set s_kwargs resource resource_value
        | None => s_kwargs
        end in
      bind_resources arguments rest s_kwargs
  end.

(** [if scope_filter:] on what [_check_scope] returns. *)
Definition truthy (scope_filter : scope_result) : bool :=
  match scope_filter with
  | RBool b => b
  | RSet names => bool_decide (names ≠ ∅)
  end.

Definition warning_message (self : decorated_handler) (scope : string) : string :=
  "Not authorizing access to "
  +:+ default "the requested API" (request_path self)
  +:+ ". Requires scope " +:+ scope
  +:+ ", not derived from scopes [" +:+ String.concat ", " (raw_scopes self)
  +:+ "]".

Definition forbidden (scope : string) : exn :=
  HTTPError 403
    ("Action is not authorized with current scopes; requires " +:+ scope).

(** [_auth_func], the body of the decorator: the warnings it logs and the
    call or exception it ends with. *)
Definition needs_scope (scope : string) (iteration : list string)
    (self : decorated_handler) (arguments : dict pyval)
  : list string * result invocation :=
  let s_kwargs := bind_resources arguments iteration [] in
  let s_kwargs :=
    if dict_in "scope_filter" arguments
    then dict_set s_kwargs "scope_filter" PyNone
    else s_kwargs in
  match _check_scope (handler_of self) scope s_kwargs with
  | Raise e => ([], Raise e)
  | Ok scope_filter =>
      if truthy scope_filter then
        ([], Ok (Invoke match scope_filter with
                        | RSet names => Some names
                        | RBool _ => None
                        end))
      else ([warning_message self scope], Raise (forbidden scope))
  end.

(** ** Definitions used in the statements *)

(** The two parts of a scope string that [parse_scopes] works on. *)
Definition base_scope_of (scope : string) : string := (partition "!" scope).1.1.
Definition filter_of (scope : string) : string := (partition "!" scope).2.

(** [sub_scope] after the clause [key=val] has been recorded in it. *)
Definition record_clause (sub_scope : dict (list string)) (filter_ : string)
  : dict (list string) :=
  let '(key, _, val) := partition "=" filter_ in
  dict_set sub_scope key (default [] (dict_get sub_scope key) ++ [val]).

(** Every filter map of a model under construction holds a clause. *)
Definition filter_maps_inhabited (m : gmap string scope_value) : Prop :=
  ∀ n sub_scope, m !! n = Some (Filtered sub_scope) → sub_scope ≠ [].

(** One turn of the loop allows. *)
Definition allowed_by (api_handler : handler) (sub_scope : dict (list string))
    (item : string * pyval) : bool :=
  filter_matches sub_scope item.1 item.2
  || (_needs_scope_expansion item.1 item.2 sub_scope
      && match find_user api_handler item.2 with
         | Some user =>
             bool_decide
               (list_to_set (default [] (dict_get sub_scope "group"))
                  ∩ list_to_set (orm.name <$> orm.groups user)
                ≠ (∅ : gset string))
         | None => false
         end).

(** The identity store knows the user of every [user] attribute that the
    group expansion applies to. *)
Definition users_known (api_handler : handler) (sub_scope : dict (list string))
    (items : list (string * pyval)) : Prop :=
  ∀ user_name, ("user", user_name) ∈ items →
    _needs_scope_expansion "user" user_name sub_scope = true →
    is_Some (find_user api_handler user_name).

(** The key and the value of the filter clause of a scope string. *)
Definition key_of (scope : string) : string :=
  (partition "=" (filter_of scope)).1.1.
Definition val_of (scope : string) : string :=
  (partition "=" (filter_of scope)).2.

(** A scope string is an unfiltered occurrence of the scope name [n]. *)
Definition unfiltered (n : string) (scope : string) : Prop :=
  base_scope_of scope = n ∧ filter_of scope = "".

(** A scope string carries a clause with key [k] for the scope name [n]. *)
Definition clause_for (n k : string) (scope : string) : Prop :=
  base_scope_of scope = n ∧ filter_of scope ≠ "" ∧ key_of scope = k.

#[global] Instance unfiltered_dec (n scope : string) : Decision (unfiltered n scope).
Proof. unfold unfiltered. apply _. Defined.

#[global] Instance clause_for_dec (n k scope : string) :
  Decision (clause_for n k scope).
Proof. unfold clause_for. apply _. Defined.

(** The values that the scope strings of a list give to the key [k] of the
    scope name [n], in the order of the list. *)
Definition values_for (n k : string) (scope_list : list string) : list string :=
  val_of <$> filter (clause_for n k) scope_list.

(** What the model [m] parsed from the list [l] holds for each scope name:
    the marker when the list has an unfiltered occurrence of the name,
    nothing when the list does not mention the name, and otherwise a filter
    map that gives each key the values of its clauses. *)
Definition denotes (l : list string) (m : gmap string scope_value) : Prop :=
  ∀ n, match m !! n with
       | Some ALL => Exists (unfiltered n) l
       | Some (Filtered sub_scope) =>
           ¬ Exists (unfiltered n) l
           ∧ Exists (λ scope, base_scope_of scope = n) l
           ∧ ∀ k, dict_get sub_scope k =
                    match values_for n k l with
                    | [] => None
                    | values => Some values
                    end
       | None => Forall (λ scope, base_scope_of scope ≠ n) l
       end.

(** Two values of a scope name agree up to the order of the values of each
    key. *)
Definition scope_value_equiv (v1 v2 : option scope_value) : Prop :=
  match v1, v2 with
  | None, None => True
  | Some ALL, Some ALL => True
  | Some (Filtered sub_scope1), Some (Filtered sub_scope2) =>
      ∀ k, match dict_get sub_scope1 k, dict_get sub_scope2 k with
           | None, None => True
           | Some values1, Some values2 => values1 ≡ₚ values2
           | _, _ => False
           end
  | _, _ => False
  end.

(** The keyword argument that [needs_scope] binds for a resource, if the
    method has an argument for it. *)
Definition bound_resource (arguments : dict pyval) (resource : string)
  : option (string * pyval) :=
  (λ resource_value, (resource, resource_value))
    <$> dict_get arguments (resource +:+ "_name").

(** ** Example data *)

Definition no_db : orm.Session :=
  {| orm.query_names_in := λ _ names, names;
     orm.query_users_in_groups := λ _, [] |}.

(** A store that knows [carol], a member of [admins], and nobody else. *)
Definition carol_store (user_name : pyval) : option orm.User :=
  if decide (user_name = PyStr "carol")
  then Some {| orm.groups := [ {| orm.name := "admins" |} ] |}
  else None.

Definition mk_handler (scopes : list (string * scope_value)) : handler :=
  {| parsed_scopes := list_to_map scopes; find_user := carol_store; db := no_db |}.

(** A token granted [s!server=ghost/x] and [s!group=admins] asks for the
    server [x] of [ghost], a user the identity store does not know. *)
Definition ghost_scope : dict (list string) :=
  [("server", ["ghost/x"]); ("group", ["admins"])].

Definition ghost_handler : handler := mk_handler [("s", Filtered ghost_scope)].

Definition ghost_user_first : dict pyval :=
  [("user", PyStr "ghost"); ("server", PyStr "x")].

Definition ghost_server_first : dict pyval :=
  [("server", PyStr "x"); ("user", PyStr "ghost")].

(** A handler whose scopes are the user metascope of [alice]. *)
Definition alice_handler : handler :=
  {| parsed_scopes :=
       match parse_scopes (elements (get_user_scopes "alice")) with
       | Ok m => m
       | Raise _ => ∅
       end;
     find_user := carol_store;
     db := no_db |}.

(** * Properties *)

(** ** Strings and dictionaries *)

Lemma partition_not_contains (sep : ascii) (s : string) :
  contains sep s = false → partition sep s = (s, "", "").
Proof.
  induction s as [|c s IH]; simpl; [done|].
  destruct (decide (c = sep)); [done|].
  intros H. by rewrite (IH H).
Qed.

Lemma partition_app (sep : ascii) (a b : string) :
  contains sep a = false →
  partition sep (a +:+ String sep b) = (a, String sep "", b).
Proof.
  induction a as [|c a IH]; simpl.
  - intros _. by rewrite decide_True.
  - destruct (decide (c = sep)); [done|].
    intros H. by rewrite (IH H).
Qed.

Lemma partition_head_no_sep (sep : ascii) (s : string) :
  contains sep (partition sep s).1.1 = false.
Proof.
  induction s as [|c s IH]; simpl; [done|].
  destruct (decide (c = sep)) as [|Hne]; [done|].
  destruct (partition sep s) as [[h m] t]; simpl in *.
  by rewrite decide_False.
Qed.

Section dict_facts.
Context {V : Type}.
Implicit Types (d : dict V) (k : string) (v : V).

Lemma dict_get_set_eq d k v : dict_get (dict_set d k v) k = Some v.
Proof.
  induction d as [|[k' v'] d IH]; simpl.
  - by rewrite decide_True.
  - destruct (decide (k' = k)); simpl.
    + by rewrite decide_True.
    + by rewrite decide_False.
Qed.

Lemma dict_get_set_ne d k k' v :
  k ≠ k' → dict_get (dict_set d k v) k' = dict_get d k'.
Proof.
  intros Hne. induction d as [|[k0 v0] d IH]; simpl.
  - by rewrite decide_False.
  - destruct (decide (k0 = k)) as [->|]; simpl.
    + by rewrite !decide_False.
    + by rewrite IH.
Qed.

Lemma dict_set_set d k v w : dict_set (dict_set d k v) k w = dict_set d k w.
Proof.
  induction d as [|[k0 v0] d IH]; simpl.
  - by rewrite decide_True.
  - destruct (decide (k0 = k)); simpl.
    + by rewrite decide_True.
    + rewrite decide_False; [|done]. by rewrite IH.
Qed.

Lemma dict_set_not_nil d k v : dict_set d k v ≠ [].
Proof. destruct d as [|[k0 v0] d]; simpl; [done|]. by case_decide. Qed.

Lemma dict_in_set d k k' v :
  dict_in k' (dict_set d k v) = if decide (k = k') then true else dict_in k' d.
Proof.
  unfold dict_in. case_decide as Hk.
  - subst. by rewrite dict_get_set_eq.
  - by rewrite dict_get_set_ne.
Qed.

Lemma dict_get_elem_of d k v : dict_get d k = Some v → (k, v) ∈ d.
Proof.
  induction d as [|[k0 v0] d IH]; simpl; [done|].
  case_decide as Hk.
  - intros [= ->]. subst. apply list_elem_of_here.
  - intros H. apply list_elem_of_further. by apply IH.
Qed.
End dict_facts.

(** ** The parser, one scope string at a time *)

Lemma parse_scope_unfiltered (m : gmap string scope_value) (scope : string) :
  filter_of scope = "" →
  parse_scope m scope = Ok (<[base_scope_of scope := ALL]> m).
Proof.
  unfold parse_scope, filter_of, base_scope_of.
  destruct (partition "!" scope) as [[base mid] filter_]; simpl.
  intros ->. rewrite decide_True; [|done].
  unfold model_getitem. by rewrite lookup_insert_eq.
Qed.

Lemma parse_scope_on_ALL (m : gmap string scope_value) (scope : string) :
  filter_of scope ≠ "" → m !! base_scope_of scope = Some ALL →
  parse_scope m scope = Ok m.
Proof.
  unfold parse_scope, filter_of, base_scope_of.
  destruct (partition "!" scope) as [[base mid] filter_]; simpl.
  intros Hf Hm. rewrite decide_False; [|done].
  rewrite decide_False; [|by rewrite Hm].
  unfold model_getitem. by rewrite Hm.
Qed.

Lemma parse_scope_fresh (m : gmap string scope_value) (scope : string) :
  filter_of scope ≠ "" → m !! base_scope_of scope = None →
  parse_scope m scope =
    Ok (<[base_scope_of scope := Filtered (record_clause [] (filter_of scope))]> m).
Proof.
  unfold parse_scope, filter_of, base_scope_of, record_clause.
  destruct (partition "!" scope) as [[base mid] filter_]; simpl.
  intros Hf Hm. rewrite decide_False; [|done].
  rewrite decide_True; [|done].
  unfold model_getitem. rewrite lookup_insert_eq. simpl.
  destruct (partition "=" filter_) as [[key mid'] val]; simpl.
  unfold dict_getitem; simpl. rewrite decide_True; [|done]. simpl.
  rewrite decide_True; [|done]. by rewrite insert_insert_eq.
Qed.

Lemma parse_scope_on_filtered (m : gmap string scope_value) (scope : string)
    (sub_scope : dict (list string)) :
  filter_of scope ≠ "" → m !! base_scope_of scope = Some (Filtered sub_scope) →
  parse_scope m scope =
    Ok (<[base_scope_of scope := Filtered (record_clause sub_scope (filter_of scope))]> m).
Proof.
  unfold parse_scope, filter_of, base_scope_of, record_clause.
  destruct (partition "!" scope) as [[base mid] filter_]; simpl.
  intros Hf Hm. rewrite decide_False; [|done].
  rewrite decide_False; [|by rewrite Hm].
  unfold model_getitem. rewrite Hm. simpl.
  destruct (partition "=" filter_) as [[key mid'] val]; simpl.
  unfold dict_in, dict_getitem.
  destruct (dict_get sub_scope key) as [values|] eqn:Hkey; simpl.
  - by rewrite Hkey.
  - rewrite dict_get_set_eq. simpl. by rewrite dict_set_set.
Qed.

(** The four cases together: what one scope string does to the model. *)
Lemma parse_scope_cases (m : gmap string scope_value) (scope : string) :
  ∃ v, parse_scope m scope = Ok (<[base_scope_of scope := v]> m)
    ∧ ((filter_of scope = "" ∧ v = ALL)
       ∨ (filter_of scope ≠ "" ∧ m !! base_scope_of scope = Some ALL ∧ v = ALL)
       ∨ (filter_of scope ≠ "" ∧ m !! base_scope_of scope = None
          ∧ v = Filtered (record_clause [] (filter_of scope)))
       ∨ (∃ sub_scope, filter_of scope ≠ ""
          ∧ m !! base_scope_of scope = Some (Filtered sub_scope)
          ∧ v = Filtered (record_clause sub_scope (filter_of scope)))).
Proof.
  destruct (decide (filter_of scope = "")) as [Hf|Hf].
  { exists ALL. split; [by apply parse_scope_unfiltered | by left]. }
  destruct (m !! base_scope_of scope) as [[|sub_scope]|] eqn:Hm.
  - exists ALL. split; [|by right; left].
    rewrite parse_scope_on_ALL; [|done..]. by rewrite insert_id.
  - exists (Filtered (record_clause sub_scope (filter_of scope))).
    split; [by apply parse_scope_on_filtered|]. do 3 right. by exists sub_scope.
  - exists (Filtered (record_clause [] (filter_of scope))).
    split; [by apply parse_scope_fresh|]. right; right; left. done.
Qed.

Lemma parse_scope_total (m : gmap string scope_value) (scope : string) :
  ∃ m', parse_scope m scope = Ok m'.
Proof. destruct (parse_scope_cases m scope) as (v & -> & _). eauto. Qed.

Lemma parse_scope_other (m m' : gmap string scope_value) (scope n : string) :
  parse_scope m scope = Ok m' → n ≠ base_scope_of scope → m' !! n = m !! n.
Proof.
  destruct (parse_scope_cases m scope) as (v & -> & _).
  intros [= <-] Hn. by rewrite lookup_insert_ne.
Qed.

Lemma parse_scopes_from_total (m : gmap string scope_value) (l : list string) :
  ∃ m', parse_scopes_from m l = Ok m'.
Proof.
  revert m. induction l as [|scope l IH]; intros m; simpl; [eauto|].
  destruct (parse_scope_total m scope) as [m1 ->]. simpl. apply IH.
Qed.

Lemma parse_scopes_from_app (m : gmap string scope_value) (l1 l2 : list string) :
  parse_scopes_from m (l1 ++ l2) =
    parse_scopes_from m l1 ≫= λ m1, parse_scopes_from m1 l2.
Proof.
  revert m. induction l1 as [|scope l1 IH]; intros m; simpl; [done|].
  destruct (parse_scope m scope) as [m1|e]; simpl; [apply IH | done].
Qed.

Lemma parse_scope_keeps_ALL (m m' : gmap string scope_value) (scope n : string) :
  parse_scope m scope = Ok m' → m !! n = Some ALL → m' !! n = Some ALL.
Proof.
  intros Hstep Hn.
  destruct (decide (n = base_scope_of scope)) as [->|Hne];
    [|by rewrite (parse_scope_other _ _ _ _ Hstep Hne)].
  destruct (parse_scope_cases m scope) as (v & Heq & Hv).
  rewrite Heq in Hstep. injection Hstep as <-. rewrite lookup_insert_eq.
  destruct Hv as [[_ ->]|[(_ & _ & ->)|[(_ & Hm & _)|(f & _ & Hm & _)]]];
    congruence.
Qed.

Lemma parse_scopes_from_keeps_ALL (l : list string)
    (m m' : gmap string scope_value) (n : string) :
  parse_scopes_from m l = Ok m' → m !! n = Some ALL → m' !! n = Some ALL.
Proof.
  revert m. induction l as [|scope l IH]; intros m; simpl.
  - by intros [= <-].
  - destruct (parse_scope m scope) as [m1|e] eqn:Hstep; simpl; [|done].
    intros Hrest Hn. apply (IH m1 Hrest). by eapply parse_scope_keeps_ALL.
Qed.

(** The shape of a scope string decides what [partition] makes of it. *)
Lemma base_scope_of_plain (name : string) :
  contains "!" name = false → base_scope_of name = name ∧ filter_of name = "".
Proof.
  intros H. unfold base_scope_of, filter_of.
  by rewrite (partition_not_contains _ _ H).
Qed.

Lemma base_scope_of_clause (name clause : string) :
  contains "!" name = false →
  base_scope_of (name +:+ "!" +:+ clause) = name
  ∧ filter_of (name +:+ "!" +:+ clause) = clause.
Proof.
  intros H. unfold base_scope_of, filter_of.
  change ("!" +:+ clause) with (String "!" clause).
  by rewrite (partition_app _ _ _ H).
Qed.

Lemma record_clause_not_nil (sub_scope : dict (list string)) (filter_ : string) :
  record_clause sub_scope filter_ ≠ [].
Proof.
  unfold record_clause. destruct (partition "=" filter_) as [[key mid] val].
  apply dict_set_not_nil.
Qed.

Lemma record_clause_extends (sub_scope : dict (list string)) (filter_ k : string)
    (values : list string) :
  dict_get sub_scope k = Some values →
  ∃ more, dict_get (record_clause sub_scope filter_) k = Some (values ++ more).
Proof.
  unfold record_clause. destruct (partition "=" filter_) as [[key mid] val].
  intros Hk. destruct (decide (key = k)) as [->|Hne].
  - rewrite dict_get_set_eq, Hk. simpl. eauto.
  - rewrite dict_get_set_ne; [|done]. exists []. by rewrite app_nil_r.
Qed.

Lemma record_clause_no_eq (sub_scope : dict (list string)) (clause : string) :
  contains "=" clause = false →
  record_clause sub_scope clause =
    dict_set sub_scope clause (default [] (dict_get sub_scope clause) ++ [""]).
Proof.
  intros H. unfold record_clause. by rewrite (partition_not_contains _ _ H).
Qed.

Lemma parse_scope_inhabited (m m' : gmap string scope_value) (scope : string) :
  filter_maps_inhabited m → parse_scope m scope = Ok m' → filter_maps_inhabited m'.
Proof.
  intros Hinv Hstep n sub_scope Hn.
  destruct (decide (n = base_scope_of scope)) as [->|Hne];
    [|rewrite (parse_scope_other _ _ _ _ Hstep Hne) in Hn; by eapply Hinv].
  destruct (parse_scope_cases m scope) as (v & Heq & Hv).
  rewrite Heq in Hstep. injection Hstep as <-.
  rewrite lookup_insert_eq in Hn. injection Hn as ->.
  destruct Hv as [[_ ?]|[(_ & _ & ?)|[(_ & _ & [= ->])|(f & _ & _ & [= ->])]]];
    try done; apply record_clause_not_nil.
Qed.

Lemma parse_scopes_from_inhabited (l : list string) (m m' : gmap string scope_value) :
  filter_maps_inhabited m → parse_scopes_from m l = Ok m' → filter_maps_inhabited m'.
Proof.
  revert m. induction l as [|scope l IH]; intros m Hinv; simpl.
  - by intros [= <-].
  - destruct (parse_scope m scope) as [m1|e] eqn:Hstep; simpl; [|done].
    apply IH. by eapply parse_scope_inhabited.
Qed.


(** ** The parser: the claims *)

(** C7.  A scope string with no ['!'] maps its scope name to the metascope
    marker, whatever was parsed before; a filtered entry for a name that
    already holds the marker leaves the model as it is; the marker, once
    set, survives every later entry; and [["s"; "s!user=a"]] parses to
    [s -> ALL]. *)
Theorem parse_scopes_metascope_dominates :
  (∀ (l : list string) (s : string),
      contains "!" s = false →
      ∃ m, parse_scopes (l ++ [s]) = Ok m ∧ m !! s = Some ALL)
  ∧ (∀ (m : gmap string scope_value) (name clause : string),
      contains "!" name = false → clause ≠ "" → m !! name = Some ALL →
      parse_scope m (name +:+ "!" +:+ clause) = Ok m)
  ∧ (∀ (l1 l2 : list string) (m1 : gmap string scope_value) (n : string),
      parse_scopes l1 = Ok m1 → m1 !! n = Some ALL →
      ∃ m2, parse_scopes (l1 ++ l2) = Ok m2 ∧ m2 !! n = Some ALL)
  ∧ parse_scopes ["s"; "s!user=a"] = Ok {[ "s" := ALL ]}.
Proof.
  split_and!.
  - intros l s Hs. unfold parse_scopes. rewrite parse_scopes_from_app.
    destruct (parse_scopes_from_total ∅ l) as [m1 ->]. simpl.
    destruct (base_scope_of_plain s Hs) as [Hb Hf].
    rewrite (parse_scope_unfiltered _ _ Hf), Hb. simpl.
    eexists. split; [done|]. apply lookup_insert_eq.
  - intros m name clause Hname Hclause Hm.
    destruct (base_scope_of_clause name clause Hname) as [Hb Hf].
    apply parse_scope_on_ALL; congruence.
  - intros l1 l2 m1 n Hl1 Hn. unfold parse_scopes in *.
    rewrite parse_scopes_from_app, Hl1. simpl.
    destruct (parse_scopes_from_total m1 l2) as [m2 Hm2].
    exists m2. split; [done|]. by eapply parse_scopes_from_keeps_ALL.
  - reflexivity.
Qed.

Lemma parse_scopes_metascope_dominates_witness :
  (∃ m, parse_scopes (["users!user=a"] ++ ["users"]) = Ok m
        ∧ m !! "users" = Some ALL)
  ∧ parse_scope {[ "s" := ALL ]} ("s" +:+ "!" +:+ "group=g") = Ok {[ "s" := ALL ]}
  ∧ (∃ m2, parse_scopes (["s"] ++ ["s!user=a"; "t!user=b"]) = Ok m2
        ∧ m2 !! "s" = Some ALL).
Proof.
  split_and!.
  - apply (proj1 parse_scopes_metascope_dominates). reflexivity.
  - apply (proj1 (proj2 parse_scopes_metascope_dominates)); done.
  - apply (proj1 (proj2 (proj2 parse_scopes_metascope_dominates))
             ["s"] _ {[ "s" := ALL ]}); reflexivity.
Defined.

(** C10.  [parse_scopes] raises on no list of strings.  A filter clause
    without ['='] is recorded whole as a filter key, with the empty string
    appended to the values of that key (so a first clause for the name gives
    the key the list [[""]]), and a scope string that ends in a bare ['!'] is
    parsed exactly as the string without it. *)
Theorem parse_scopes_total :
  (∀ l : list string, ∃ m, parse_scopes l = Ok m)
  ∧ (∀ (m : gmap string scope_value) (name clause : string),
      contains "!" name = false → clause ≠ "" → contains "=" clause = false →
      m !! name = None →
      parse_scope m (name +:+ "!" +:+ clause)
        = Ok (<[name := Filtered [(clause, [""])]]> m))
  ∧ (∀ (m : gmap string scope_value) (name clause : string)
       (sub_scope : dict (list string)),
      contains "!" name = false → clause ≠ "" → contains "=" clause = false →
      m !! name = Some (Filtered sub_scope) →
      parse_scope m (name +:+ "!" +:+ clause)
        = Ok (<[name := Filtered
                  (dict_set sub_scope clause
                     (default [] (dict_get sub_scope clause) ++ [""]))]> m))
  ∧ (∀ name clause : string,
      contains "!" name = false → clause ≠ "" → contains "=" clause = false →
      parse_scopes [name +:+ "!" +:+ clause]
        = Ok {[ name := Filtered [(clause, [""])] ]})
  ∧ (∀ (m : gmap string scope_value) (name : string),
      contains "!" name = false →
      parse_scope m (name +:+ "!") = parse_scope m name
      ∧ parse_scope m name = Ok (<[name := ALL]> m)).
Proof.
  assert (Hfresh : ∀ (m : gmap string scope_value) (name clause : string),
      contains "!" name = false → clause ≠ "" → contains "=" clause = false →
      m !! name = None →
      parse_scope m (name +:+ "!" +:+ clause)
        = Ok (<[name := Filtered [(clause, [""])]]> m)).
  { intros m name clause Hname Hclause Heq Hm.
    destruct (base_scope_of_clause name clause Hname) as [Hb Hf].
    rewrite parse_scope_fresh; [|congruence..].
    by rewrite Hb, Hf, (record_clause_no_eq _ _ Heq). }
  split_and!.
  - intros l. apply parse_scopes_from_total.
  - exact Hfresh.
  - intros m name clause sub_scope Hname Hclause Heq Hm.
    destruct (base_scope_of_clause name clause Hname) as [Hb Hf].
    rewrite (parse_scope_on_filtered m _ sub_scope); [|congruence..].
    by rewrite Hb, Hf, (record_clause_no_eq _ _ Heq).
  - intros name clause Hname Hclause Heq. unfold parse_scopes. simpl.
    rewrite (Hfresh ∅ name clause); done.
  - intros m name Hname.
    destruct (base_scope_of_clause name "" Hname) as [Hb Hf].
    destruct (base_scope_of_plain name Hname) as [Hb' Hf'].
    change ("!" +:+ "") with "!" in *.
    rewrite (parse_scope_unfiltered m (name +:+ "!") Hf).
    rewrite (parse_scope_unfiltered m name Hf'). by rewrite Hb, Hb'.
Qed.

Lemma parse_scopes_total_witness :
  parse_scopes ["s" +:+ "!" +:+ "userfoo"] = Ok {[ "s" := Filtered [("userfoo", [""])] ]}
  ∧ parse_scope {[ "s" := Filtered [("user", ["a"])] ]} ("s" +:+ "!" +:+ "userfoo")
    = Ok (<["s" := Filtered [("user", ["a"]); ("userfoo", [""])]]>
            {[ "s" := Filtered [("user", ["a"])] ]})
  ∧ parse_scope ∅ ("s" +:+ "!") = parse_scope ∅ "s".
Proof.
  split_and!.
  - apply (proj1 (proj2 (proj2 (proj2 parse_scopes_total)))); done.
  - apply (proj1 (proj2 (proj2 parse_scopes_total))
             {[ "s" := Filtered [("user", ["a"])] ]} "s" "userfoo"
             [("user", ["a"])]); done.
  - apply (proj2 (proj2 (proj2 (proj2 parse_scopes_total)))). done.
Defined.




(** ** The expansion of the user metascope *)

Lemma string_app_cons (c : ascii) (a b : string) :
  String c a +:+ b = String c (a +:+ b).
Proof. reflexivity. Qed.

Lemma string_length_app (a b : string) :
  String.length (a +:+ b) = String.length a + String.length b.
Proof.
  induction a as [|c a IH]; [done|].
  rewrite string_app_cons. simpl. by rewrite IH.
Qed.

Lemma string_app_inj_r (t a b : string) : a +:+ t = b +:+ t → a = b.
Proof.
  revert b. induction a as [|c a IH]; intros [|c' b] H.
  - done.
  - apply (f_equal String.length) in H.
    rewrite (string_length_app (String c' b) t) in H.
    change (String.length ("" +:+ t)) with (String.length t) in H.
    simpl in H. exfalso. lia.
  - apply (f_equal String.length) in H.
    rewrite (string_length_app (String c a) t) in H.
    change (String.length ("" +:+ t)) with (String.length t) in H.
    simpl in H. exfalso. lia.
  - rewrite !string_app_cons in H. injection H as -> H. f_equal. by apply IH.
Qed.

#[global] Instance string_app_suffix_inj (t : string) :
  Inj (=) (=) (λ s, s +:+ t).
Proof. intros a b. apply string_app_inj_r. Qed.

(** C8.  For every user name, [get_user_scopes] returns a set of exactly
    twelve strings: each of the six base scopes and each of their [read:]
    counterparts, followed by the filter clause [!user=] and the name.  (The
    set is a function of the name alone: no other input exists.) *)
Theorem get_user_scopes_twelve (u : string) :
  size (get_user_scopes u) = 12
  ∧ ∀ x : string, x ∈ get_user_scopes u ↔
      ∃ scope, scope ∈ [ "users"; "users:name"; "users:groups";
                         "users:activity"; "users:servers"; "users:tokens" ]
        ∧ (x = scope +:+ "!user=" +:+ u
           ∨ x = "read:" +:+ scope +:+ "!user=" +:+ u).
Proof.
  unfold get_user_scopes. split.
  - rewrite size_list_to_set.
    + by rewrite length_fmap.
    + apply (NoDup_fmap_2 (λ s, s +:+ ("!user=" +:+ u))).
      apply (bool_decide_unpack (NoDup _)). by vm_compute.
  - intros x. rewrite elem_of_list_to_set, list_elem_of_fmap. split.
    + intros (s & -> & Hs). rewrite elem_of_app, list_elem_of_fmap in Hs.
      destruct Hs as [Hs|(scope & -> & Hs)]; [exists s | exists scope];
        (split; [done|]); [by left | by right].
    + intros (scope & Hs & [->| ->]).
      * exists scope. split; [done|]. apply elem_of_app. by left.
      * exists ("read:" +:+ scope). split; [done|]. apply elem_of_app. right.
        apply list_elem_of_fmap. by exists scope.
Qed.

(** ** The decision procedure: auxiliary facts *)

Lemma dict_in_compose_server (k : string) (kwargs : dict pyval) :
  dict_in k (compose_server kwargs) = dict_in k kwargs.
Proof.
  unfold compose_server.
  destruct (dict_get kwargs "user") as [user|]; [|done].
  destruct (dict_get kwargs "server") as [server|] eqn:Hserver; [|done].
  rewrite dict_in_set. case_decide as Hk; [|done].
  subst k. unfold dict_in. by rewrite Hserver.
Qed.

Lemma dict_get_compose_server_user (kwargs : dict pyval) :
  dict_get (compose_server kwargs) "user" = dict_get kwargs "user".
Proof.
  unfold compose_server.
  destruct (dict_get kwargs "user") as [user|] eqn:Huser; [|done].
  destruct (dict_get kwargs "server") as [server|]; [|done].
  by rewrite dict_get_set_ne.
Qed.

Lemma compose_server_nil (kwargs : dict pyval) :
  compose_server kwargs = [] → kwargs = [].
Proof.
  unfold compose_server.
  destruct (dict_get kwargs "user") as [user|]; [|done].
  destruct (dict_get kwargs "server") as [server|]; [|done].
  intros H. by apply dict_set_not_nil in H.
Qed.

(** The single-resource mode of [_check_scope] is the loop [check_filters]
    over the composed keyword arguments. *)
Lemma check_scope_single_resource (api_handler : handler) (req_scope : string)
    (sub_scope : dict (list string)) (kwargs : dict pyval) :
  parsed_scopes api_handler !! req_scope = Some (Filtered sub_scope) →
  dict_in "scope_filter" kwargs = false →
  kwargs ≠ [] →
  _check_scope api_handler req_scope kwargs =
    check_filters api_handler sub_scope (compose_server kwargs).
Proof.
  intros Hscope Hmode Hne. unfold _check_scope.
  rewrite Hscope, dict_in_compose_server, Hmode.
  destruct (compose_server kwargs) eqn:Hc; [|done].
  by apply compose_server_nil in Hc.
Qed.

Lemma needs_scope_expansion_iff (filter_ : string) (filter_value : pyval)
    (sub_scope : dict (list string)) :
  _needs_scope_expansion filter_ filter_value sub_scope = true ↔
    filter_ = "user" ∧ dict_in "group" sub_scope = true
    ∧ (dict_in "user" sub_scope = false
       ∨ ∃ users, dict_get sub_scope "user" = Some users
                  ∧ py_in filter_value users = false).
Proof.
  unfold _needs_scope_expansion, dict_in.
  destruct (decide (filter_ = "user")) as [->|Hne].
  - rewrite bool_decide_eq_true_2; [|done]. simpl.
    destruct (dict_get sub_scope "group") as [group_names|]; simpl.
    + destruct (dict_get sub_scope "user") as [users|]; simpl.
      * rewrite negb_true_iff. split.
        -- intros H. split_and!; [done..|]. right. by exists users.
        -- by intros (_ & _ & [?|(users' & [= <-] & ?)]).
      * split; [|done]. intros _. split_and!; [done..|]. by left.
    + split; [done|]. by intros (_ & ? & _).
  - rewrite bool_decide_eq_false_2; [|done]. simpl.
    split; [done|]. by intros [? _].
Qed.

Lemma needs_scope_expansion_no_match (filter_ : string) (filter_value : pyval)
    (sub_scope : dict (list string)) :
  _needs_scope_expansion filter_ filter_value sub_scope = true →
  filter_matches sub_scope filter_ filter_value = false.
Proof.
  rewrite needs_scope_expansion_iff. unfold filter_matches, dict_in.
  intros (-> & _ & [Hu|(users & -> & Hin)]); [|done].
  by destruct (dict_get sub_scope "user").
Qed.

(** A user's groups meet the granted ones: the test of
    [_check_user_in_expanded_scope]. *)
Lemma groups_meet_iff (scope_group_names names : list string) :
  bool_decide
    (list_to_set scope_group_names ∩ list_to_set names ≠ (∅ : gset string)) = true
  ↔ ∃ g, g ∈ scope_group_names ∧ g ∈ names.
Proof.
  rewrite bool_decide_eq_true. split.
  - intros H. apply set_choose_L in H as [g Hg].
    exists g. set_solver.
  - intros (g & H1 & H2). apply (non_empty_inhabited_L g). set_solver.
Qed.

Lemma check_user_in_expanded_scope_known (api_handler : handler)
    (user_name : pyval) (user : orm.User) (scope_group_names : list string) :
  find_user api_handler user_name = Some user →
  ∃ found, _check_user_in_expanded_scope api_handler user_name scope_group_names
             = Ok found
    ∧ (found = true ↔
         ∃ g, g ∈ scope_group_names ∧ g ∈ orm.name <$> orm.groups user).
Proof.
  intros Hfind. unfold _check_user_in_expanded_scope. rewrite Hfind.
  eexists. split; [done|]. apply groups_meet_iff.
Qed.

(** The loop falls through to the final [raise] when nothing matches, and an
    unknown user raises the same error from within. *)
Lemma check_filters_not_found (api_handler : handler)
    (sub_scope : dict (list string)) (items : list (string * pyval)) :
  (∀ filter_ filter_value, (filter_, filter_value) ∈ items →
     filter_matches sub_scope filter_ filter_value = false
     ∧ (_needs_scope_expansion filter_ filter_value sub_scope = false
        ∨ find_user api_handler filter_value = None
        ∨ ∃ user, find_user api_handler filter_value = Some user
            ∧ ∀ group_names g, dict_get sub_scope "group" = Some group_names →
                g ∈ group_names → g ∉ orm.name <$> orm.groups user)) →
  check_filters api_handler sub_scope items = Raise not_found.
Proof.
  induction items as [|[filter_ filter_value] items IH]; intros Hall; simpl;
    [done|].
  destruct (Hall filter_ filter_value (list_elem_of_here _ _)) as [-> Hexp].
  assert (Hrest : check_filters api_handler sub_scope items = Raise not_found).
  { apply IH. intros k v Hin. apply Hall. by apply list_elem_of_further. }
  destruct (_needs_scope_expansion filter_ filter_value sub_scope) eqn:Hneeds;
    [|done].
  apply needs_scope_expansion_iff in Hneeds as (_ & Hgroup & _).
  unfold dict_in in Hgroup. unfold dict_getitem.
  destruct (dict_get sub_scope "group") as [group_names|] eqn:Hg; [|done].
  simpl. destruct Hexp as [?|[Hnone|(user & Hfind & Hdisj)]]; [done| |].
  - unfold _check_user_in_expanded_scope. by rewrite Hnone.
  - destruct (check_user_in_expanded_scope_known _ _ _ group_names Hfind)
      as (found & -> & Hfound). simpl.
    destruct found; [|done].
    destruct (proj1 Hfound eq_refl) as (g & Hin1 & Hin2).
    by destruct (Hdisj group_names g eq_refl Hin1).
Qed.

(** The loop never returns [False]: it allows or raises the 404 error. *)
Lemma check_filters_allow_or_not_found (api_handler : handler)
    (sub_scope : dict (list string)) (items : list (string * pyval)) :
  check_filters api_handler sub_scope items = Ok (RBool true)
  ∨ check_filters api_handler sub_scope items = Raise not_found.
Proof.
  induction items as [|[filter_ filter_value] items IH]; simpl; [by right|].
  destruct (filter_matches sub_scope filter_ filter_value); [by left|].
  destruct (_needs_scope_expansion filter_ filter_value sub_scope) eqn:Hneeds;
    [|done].
  apply needs_scope_expansion_iff in Hneeds as (_ & Hgroup & _).
  unfold dict_in in Hgroup. unfold dict_getitem.
  destruct (dict_get sub_scope "group") as [group_names|]; [|done]. simpl.
  unfold _check_user_in_expanded_scope.
  destruct (find_user api_handler filter_value) as [user|]; simpl; [|by right].
  destruct (bool_decide _); [by left | done].
Qed.

(** The loop allows as soon as it reaches a [user] attribute whose user is
    in a granted group; nothing before that attribute can raise. *)
Lemma check_filters_expansion (api_handler : handler)
    (sub_scope : dict (list string)) (items : list (string * pyval))
    (user_name : pyval) (user : orm.User) (group_names : list string) (g : string) :
  dict_get items "user" = Some user_name →
  _needs_scope_expansion "user" user_name sub_scope = true →
  dict_get sub_scope "group" = Some group_names →
  find_user api_handler user_name = Some user →
  g ∈ group_names → g ∈ orm.name <$> orm.groups user →
  check_filters api_handler sub_scope items = Ok (RBool true).
Proof.
  intros Hget Hneeds Hgroup Hfind Hg1 Hg2.
  induction items as [|[filter_ filter_value] items IH]; simpl in *; [done|].
  destruct (filter_matches sub_scope filter_ filter_value); [done|].
  case_decide as Hk.
  - injection Hget as ->. subst filter_. rewrite Hneeds.
    unfold dict_getitem. rewrite Hgroup. simpl.
    destruct (check_user_in_expanded_scope_known _ _ _ group_names Hfind)
      as (found & -> & Hfound). simpl.
    destruct found; [done|].
    assert (false = true) as [=]. apply Hfound. eauto.
  - destruct (_needs_scope_expansion filter_ filter_value sub_scope) eqn:Hn.
    + apply needs_scope_expansion_iff in Hn as [? _]. done.
    + by apply IH.
Qed.

(** ** The decision procedure: the claims *)

(** The examples of the specification. *)
Example ex_exact :
  _check_scope (mk_handler [("s", Filtered [("user", ["alice"])])]) "s"
    [("user", PyStr "alice")] = Allow
  ∧ _check_scope (mk_handler [("s", Filtered [("user", ["alice"])])]) "s"
    [("user", PyStr "bob")] = NotFoundOrForbidden.
Proof. split; vm_compute; reflexivity. Qed.

Example ex_group :
  _check_scope (mk_handler [("s", Filtered [("group", ["admins"])])]) "s"
    [("user", PyStr "carol")] = Allow
  ∧ _check_scope (mk_handler [("s", Filtered [("group", ["staff"])])]) "s"
    [("user", PyStr "carol")] = NotFoundOrForbidden.
Proof. split; vm_compute; reflexivity. Qed.

(** C3.  A requested scope that the model does not hold is denied, with no
    error raised, and a requested scope that holds the metascope marker is
    allowed, whatever the attributes are. *)
Theorem check_scope_unknown_or_metascope (api_handler : handler)
    (req_scope : string) (kwargs : dict pyval) :
  (parsed_scopes api_handler !! req_scope = None →
     _check_scope api_handler req_scope kwargs = Deny)
  ∧ (parsed_scopes api_handler !! req_scope = Some ALL →
     _check_scope api_handler req_scope kwargs = Allow).
Proof. unfold _check_scope. split; intros ->; reflexivity. Qed.

Lemma check_scope_unknown_or_metascope_witness :
  _check_scope (mk_handler [("x", ALL)]) "y"
    [("user", PyStr "alice"); ("scope_filter", PyNone)] = Deny
  ∧ _check_scope (mk_handler [("x", ALL)]) "x"
    [("user", PyStr "alice"); ("scope_filter", PyNone)] = Allow.
Proof.
  split.
  - apply (proj1 (check_scope_unknown_or_metascope
                    (mk_handler [("x", ALL)]) "y" _)). reflexivity.
  - apply (proj2 (check_scope_unknown_or_metascope
                    (mk_handler [("x", ALL)]) "x" _)). reflexivity.
Defined.

(** C6.  When the requested scope holds a filter map, a single-resource
    check with no attributes at all is denied silently: it returns [False]
    and does not raise the not-found error. *)
Theorem check_scope_no_attributes (api_handler : handler) (req_scope : string)
    (sub_scope : dict (list string)) :
  parsed_scopes api_handler !! req_scope = Some (Filtered sub_scope) →
  _check_scope api_handler req_scope [] = Deny
  ∧ _check_scope api_handler req_scope [] ≠ NotFoundOrForbidden.
Proof. unfold _check_scope. intros ->. simpl. done. Qed.

Lemma check_scope_no_attributes_witness :
  _check_scope (mk_handler [("s", Filtered [("user", ["alice"])])]) "s" [] = Deny
  ∧ _check_scope (mk_handler [("s", Filtered [("user", ["alice"])])]) "s" []
    ≠ NotFoundOrForbidden.
Proof.
  apply (check_scope_no_attributes
           (mk_handler [("s", Filtered [("user", ["alice"])])]) "s"
           [("user", ["alice"])]).
  reflexivity.
Defined.

(** C1.  In the single-resource mode (the requested scope holds a filter
    map, the enumeration marker is absent, the attributes are not empty):
    when no attribute, after the composition of the server name, matches the
    filter map, and for each attribute the group expansion does not apply,
    or the identity store does not know the target user, or the target user
    is in none of the granted groups, the check raises the 404 error; it
    does not return [False]. *)
Theorem check_scope_not_found (api_handler : handler) (req_scope : string)
    (sub_scope : dict (list string)) (kwargs : dict pyval) :
  parsed_scopes api_handler !! req_scope = Some (Filtered sub_scope) →
  dict_in "scope_filter" kwargs = false →
  kwargs ≠ [] →
  (∀ filter_ filter_value, (filter_, filter_value) ∈ compose_server kwargs →
     filter_matches sub_scope filter_ filter_value = false
     ∧ (_needs_scope_expansion filter_ filter_value sub_scope = false
        ∨ find_user api_handler filter_value = None
        ∨ ∃ user, find_user api_handler filter_value = Some user
            ∧ ∀ group_names g, dict_get sub_scope "group" = Some group_names →
                g ∈ group_names → g ∉ orm.name <$> orm.groups user)) →
  _check_scope api_handler req_scope kwargs
    = Raise (HTTPError 404 "No access to resources or resources not found")
  ∧ _check_scope api_handler req_scope kwargs ≠ Deny.
Proof.
  intros Hscope Hmode Hne Hall.
  rewrite (check_scope_single_resource _ _ _ _ Hscope Hmode Hne).
  rewrite (check_filters_not_found _ _ _ Hall). done.
Qed.

Lemma check_scope_not_found_witness :
  _check_scope
    (mk_handler [("s", Filtered [("user", ["alice"]); ("group", ["staff"])])])
    "s" [("user", PyStr "carol"); ("server", PyStr "lab")]
    = Raise (HTTPError 404 "No access to resources or resources not found")
  ∧ _check_scope
    (mk_handler [("s", Filtered [("user", ["alice"]); ("group", ["staff"])])])
    "s" [("user", PyStr "carol"); ("server", PyStr "lab")] ≠ Deny.
Proof.
  apply (check_scope_not_found
           (mk_handler [("s", Filtered [("user", ["alice"]); ("group", ["staff"])])])
           "s" [("user", ["alice"]); ("group", ["staff"])]).
  - reflexivity.
  - reflexivity.
  - discriminate.
  - intros filter_ filter_value Hin.
    apply list_elem_of_In in Hin. simpl in Hin.
    destruct Hin as [[= <- <-]|[[= <- <-]|[]]].
    + split; [reflexivity|]. right. right. eexists. split; [reflexivity|].
      intros group_names g [= <-] Hg Hcarol.
      apply list_elem_of_In in Hg, Hcarol. simpl in Hg, Hcarol.
      destruct Hg as [<-|[]]. destruct Hcarol as [[=]|[]].
    + split; [reflexivity|]. left. reflexivity.
Defined.

(** C4.  The group expansion applies to an attribute exactly when its key is
    [user], the filter map has a [group] filter, and [user] is absent from
    the filter map or the attribute's value is not among its [user] values.
    In the single-resource mode, when it applies to the [user] attribute and
    the target user belongs to one of the groups of the [group] filter, the
    check allows. *)
Theorem group_expansion_applies_and_allows :
  (∀ (filter_ : string) (filter_value : pyval) (sub_scope : dict (list string)),
      _needs_scope_expansion filter_ filter_value sub_scope = true ↔
        filter_ = "user" ∧ dict_in "group" sub_scope = true
        ∧ (dict_in "user" sub_scope = false
           ∨ ∃ users, dict_get sub_scope "user" = Some users
                      ∧ py_in filter_value users = false))
  ∧ (∀ (api_handler : handler) (req_scope : string)
       (sub_scope : dict (list string)) (kwargs : dict pyval)
       (user_name : pyval) (user : orm.User) (group_names : list string)
       (g : string),
      parsed_scopes api_handler !! req_scope = Some (Filtered sub_scope) →
      dict_in "scope_filter" kwargs = false →
      dict_get kwargs "user" = Some user_name →
      _needs_scope_expansion "user" user_name sub_scope = true →
      dict_get sub_scope "group" = Some group_names →
      find_user api_handler user_name = Some user →
      g ∈ group_names → g ∈ orm.name <$> orm.groups user →
      _check_scope api_handler req_scope kwargs = Allow).
Proof.
  split; [apply needs_scope_expansion_iff|].
  intros api_handler req_scope sub_scope kwargs user_name user group_names g
    Hscope Hmode Huser Hneeds Hgroup Hfind Hg1 Hg2.
  rewrite (check_scope_single_resource _ _ sub_scope); [|done..|by intros ->].
  eapply check_filters_expansion; [|done..].
  by rewrite dict_get_compose_server_user.
Qed.

Lemma group_expansion_applies_and_allows_witness :
  _needs_scope_expansion "user" (PyStr "carol")
    [("user", ["alice"]); ("group", ["admins"])] = true
  ∧ _check_scope
      (mk_handler [("s", Filtered [("user", ["alice"]); ("group", ["admins"])])])
      "s" [("server", PyStr "lab"); ("user", PyStr "carol")] = Allow.
Proof.
  split.
  - apply (proj1 group_expansion_applies_and_allows).
    split_and!; [reflexivity..|]. right. eexists. split; reflexivity.
  - apply (proj2 group_expansion_applies_and_allows
             (mk_handler [("s", Filtered [("user", ["alice"]); ("group", ["admins"])])])
             "s" [("user", ["alice"]); ("group", ["admins"])]
             [("server", PyStr "lab"); ("user", PyStr "carol")]
             (PyStr "carol") {| orm.groups := [ {| orm.name := "admins" |} ] |}
             ["admins"] "admins");
      try reflexivity; apply list_elem_of_here.
Defined.

(** ** Several attributes: where the order of evaluation shows *)

(** C5 at the failing input.  The scope model is the parse of the two
    granted scope strings; the request is in the single-resource mode; the
    composed [server] attribute is in the filter map; yet, the [user]
    attribute coming first, the lookup of the unknown user raises the 404
    error before the [server] attribute is looked at. *)
Theorem check_scope_match_lost_to_unknown_user :
  parse_scopes ["s!server=ghost/x"; "s!group=admins"]
    = Ok (parsed_scopes ghost_handler)
  ∧ parsed_scopes ghost_handler !! "s" = Some (Filtered ghost_scope)
  ∧ dict_in "scope_filter" ghost_user_first = false
  ∧ ("server", PyStr "ghost/x") ∈ compose_server ghost_user_first
  ∧ filter_matches ghost_scope "server" (PyStr "ghost/x") = true
  ∧ find_user ghost_handler (PyStr "ghost") = None
  ∧ _check_scope ghost_handler "s" ghost_user_first = NotFoundOrForbidden
  ∧ _check_scope ghost_handler "s" ghost_user_first ≠ Allow.
Proof.
  split_and!; try reflexivity.
  - apply list_elem_of_further, list_elem_of_here.
  - discriminate.
Qed.

(** C9 at the failing input.  The same attributes in the two orders, the
    same model and identity store: the check raises the 404 error when
    [user] comes first and allows when [server] comes first. *)
Theorem check_scope_order_dependent :
  ghost_user_first ≡ₚ ghost_server_first
  ∧ NoDup (dict_keys ghost_user_first)
  ∧ dict_in "scope_filter" ghost_user_first = false
  ∧ _check_scope ghost_handler "s" ghost_user_first = NotFoundOrForbidden
  ∧ _check_scope ghost_handler "s" ghost_server_first = Allow
  ∧ _check_scope ghost_handler "s" ghost_user_first
    ≠ _check_scope ghost_handler "s" ghost_server_first.
Proof.
  split_and!; try reflexivity.
  - apply perm_swap.
  - apply (bool_decide_unpack (NoDup _)). reflexivity.
  - discriminate.
Qed.

(** *** What holds when the identity store knows the target user *)

Lemma check_filters_users_known (api_handler : handler)
    (sub_scope : dict (list string)) (items : list (string * pyval)) :
  users_known api_handler sub_scope items →
  check_filters api_handler sub_scope items =
    if existsb (allowed_by api_handler sub_scope) items
    then Ok (RBool true) else Raise not_found.
Proof.
  induction items as [|[filter_ filter_value] items IH]; intros Hknown; simpl;
    [done|].
  assert (Hrest : users_known api_handler sub_scope items).
  { intros u Hin. apply Hknown. by apply list_elem_of_further. }
  unfold allowed_by at 1. simpl.
  destruct (filter_matches sub_scope filter_ filter_value); simpl; [done|].
  destruct (_needs_scope_expansion filter_ filter_value sub_scope) eqn:Hneeds;
    simpl; [|by apply IH].
  pose proof Hneeds as Hiff.
  apply needs_scope_expansion_iff in Hiff as (-> & Hgroup & _).
  unfold dict_in in Hgroup. unfold dict_getitem.
  destruct (dict_get sub_scope "group") as [group_names|]; [|done]. simpl.
  destruct (Hknown filter_value (list_elem_of_here _ _) Hneeds) as [user Hfind].
  unfold _check_user_in_expanded_scope. rewrite Hfind. simpl.
  case_bool_decide; simpl; [done | by apply IH].
Qed.

Lemma existsb_Permutation {A : Type} (f : A → bool) (l1 l2 : list A) :
  l1 ≡ₚ l2 → existsb f l1 = existsb f l2.
Proof.
  induction 1 as [|x l1 l2 _ IH|x y l|l1 l2 l3 _ IH1 _ IH2]; simpl.
  - done.
  - by rewrite IH.
  - by destruct (f x), (f y).
  - by rewrite IH1.
Qed.

(** With unique keys, as in a Python dictionary, lookup and update do not
    depend on the order of the items. *)
Lemma dict_get_None {V : Type} (d : dict V) (k : string) :
  dict_get d k = None ↔ k ∉ dict_keys d.
Proof.
  unfold dict_keys. induction d as [|[k0 v0] d IH]; simpl.
  - split; [|done]. intros _. apply not_elem_of_nil.
  - rewrite not_elem_of_cons. case_decide as Hk.
    + split; [done|]. by intros [? _].
    + rewrite IH. split; [by intros ?; split | by intros [_ ?]].
Qed.

Lemma dict_get_Some_NoDup {V : Type} (d : dict V) (k : string) (v : V) :
  NoDup (dict_keys d) → dict_get d k = Some v ↔ (k, v) ∈ d.
Proof.
  unfold dict_keys. induction d as [|[k0 v0] d IH]; simpl; intros Hnd.
  - split; [done|]. intros H. by apply elem_of_nil in H.
  - apply NoDup_cons in Hnd as [Hk0 Hnd]. rewrite elem_of_cons.
    case_decide as Hk.
    + subst k0. split; [intros [= ->]; by left|].
      intros [[= ->]|Hin]; [done|]. destruct Hk0.
      apply list_elem_of_fmap. by exists (k, v).
    + rewrite (IH Hnd). split; [by right|]. by intros [[= ? ?]|?].
Qed.

Lemma dict_get_Permutation {V : Type} (d1 d2 : dict V) (k : string) :
  d1 ≡ₚ d2 → NoDup (dict_keys d1) → dict_get d1 k = dict_get d2 k.
Proof.
  intros Hperm Hnd1.
  assert (Hnd2 : NoDup (dict_keys d2)).
  { unfold dict_keys in *. by rewrite <- Hperm. }
  destruct (dict_get d1 k) as [v|] eqn:H1.
  - symmetry. apply dict_get_Some_NoDup; [done|]. rewrite <- Hperm.
    by apply dict_get_Some_NoDup.
  - symmetry. apply dict_get_None. apply dict_get_None in H1.
    unfold dict_keys in *. by rewrite <- Hperm.
Qed.

Lemma filter_key_absent {V : Type} (d : list (string * V)) (k : string) :
  k ∉ d.*1 → filter (λ item, item.1 ≠ k) d = d.
Proof.
  induction d as [|[k0 v0] d IH]; [done|].
  rewrite fmap_cons, not_elem_of_cons. intros [Hk Hd].
  rewrite filter_cons_True; [|by intros ?]. by rewrite (IH Hd).
Qed.

Lemma dict_set_filter {V : Type} (d : list (string * V)) (k : string) (v : V) :
  NoDup (dict_keys d) →
  dict_set d k v ≡ₚ (k, v) :: filter (λ item, item.1 ≠ k) d.
Proof.
  unfold dict_keys. induction d as [|[k0 v0] d IH]; intros Hnd; [done|].
  rewrite fmap_cons in Hnd. apply NoDup_cons in Hnd as [Hk0 Hnd].
  cbn [dict_set]. case_decide as Hk.
  - subst k0. rewrite filter_cons_False; [|by intros ?].
    by rewrite (filter_key_absent d k Hk0).
  - rewrite filter_cons_True; [|done]. rewrite (IH Hnd). apply perm_swap.
Qed.

Lemma dict_set_Permutation {V : Type} (d1 d2 : dict V) (k : string) (v : V) :
  d1 ≡ₚ d2 → NoDup (dict_keys d1) → dict_set d1 k v ≡ₚ dict_set d2 k v.
Proof.
  intros Hperm Hnd1.
  assert (Hnd2 : NoDup (dict_keys d2)).
  { unfold dict_keys in *. by rewrite <- Hperm. }
  rewrite !dict_set_filter; [|done..]. by rewrite Hperm.
Qed.

Lemma compose_server_Permutation (kwargs1 kwargs2 : dict pyval) :
  kwargs1 ≡ₚ kwargs2 → NoDup (dict_keys kwargs1) →
  compose_server kwargs1 ≡ₚ compose_server kwargs2.
Proof.
  intros Hperm Hnd. unfold compose_server.
  rewrite <- !(dict_get_Permutation kwargs1 kwargs2); [|done..].
  destruct (dict_get kwargs1 "user"); [|done].
  destruct (dict_get kwargs1 "server"); [|done].
  by apply dict_set_Permutation.
Qed.

Lemma elem_of_compose_server_user (kwargs : dict pyval) (user_name : pyval) :
  ("user", user_name) ∈ compose_server kwargs → ("user", user_name) ∈ kwargs.
Proof.
  unfold compose_server.
  destruct (dict_get kwargs "user") as [user|]; [|done].
  destruct (dict_get kwargs "server") as [server|]; [|done].
  generalize (PyStr (py_str user +:+ "/" +:+ py_str server)). intros v.
  induction kwargs as [|[k0 v0] kwargs IH]; simpl.
  - intros H. apply list_elem_of_singleton in H. done.
  - case_decide as Hk; rewrite !elem_of_cons.
    + intros [[=]|?]. by right.
    + intros [?|?]; [by left | right; by apply IH].
Qed.

(** The order of the attributes does not change the outcome of a check
    when the identity store knows every user that the group expansion
    looks up. *)
Lemma check_scope_Permutation (api_handler : handler) (req_scope : string)
    (kwargs1 kwargs2 : dict pyval) :
  kwargs1 ≡ₚ kwargs2 → NoDup (dict_keys kwargs1) →
  (∀ sub_scope,
     parsed_scopes api_handler !! req_scope = Some (Filtered sub_scope) →
     users_known api_handler sub_scope (compose_server kwargs1)) →
  _check_scope api_handler req_scope kwargs1
    = _check_scope api_handler req_scope kwargs2.
Proof.
  intros Hperm Hnd Hknown. unfold _check_scope.
  destruct (parsed_scopes api_handler !! req_scope) as [[|sub_scope]|]; [done| |done].
  pose proof (compose_server_Permutation _ _ Hperm Hnd) as Hc.
  rewrite !dict_in_compose_server. unfold dict_in.
  rewrite <- (dict_get_Permutation kwargs1 kwargs2); [|done..].
  destruct (dict_get kwargs1 "scope_filter"); [done|].
  pose proof (Hknown sub_scope eq_refl) as Hk1.
  assert (Hk2 : users_known api_handler sub_scope (compose_server kwargs2)).
  { intros u Hin. apply Hk1. by rewrite Hc. }
  destruct (compose_server kwargs1) as [|item1 rest1] eqn:H1.
  - apply Permutation_nil_l in Hc. by rewrite <- Hc.
  - destruct (compose_server kwargs2) as [|item2 rest2] eqn:H2.
    + by apply Permutation_nil_r in Hc.
    + rewrite !check_filters_users_known; [|done..].
      by rewrite (existsb_Permutation _ _ _ Hc).
Qed.

(** X9.  The order of the attributes does not change the outcome of a
    check, in either mode, when the identity store knows the user of the
    [user] attribute. *)
Lemma check_scope_order_users_known (api_handler : handler) (req_scope : string)
    (kwargs1 kwargs2 : dict pyval) :
  kwargs1 ≡ₚ kwargs2 → NoDup (dict_keys kwargs1) →
  (∀ user_name, ("user", user_name) ∈ kwargs1 →
     is_Some (find_user api_handler user_name)) →
  _check_scope api_handler req_scope kwargs1
    = _check_scope api_handler req_scope kwargs2.
Proof.
  intros Hperm Hnd Hknown. apply check_scope_Permutation; [done..|].
  intros sub_scope _ u Hin _. apply Hknown.
  by apply elem_of_compose_server_user.
Qed.

Lemma check_scope_order_users_known_witness :
  _check_scope
    (mk_handler [("s", Filtered [("server", ["carol/web"]); ("group", ["staff"])])])
    "s" [("user", PyStr "carol"); ("server", PyStr "web")]
  = _check_scope
    (mk_handler [("s", Filtered [("server", ["carol/web"]); ("group", ["staff"])])])
    "s" [("server", PyStr "web"); ("user", PyStr "carol")].
Proof.
  apply check_scope_order_users_known.
  - apply perm_swap.
  - apply (bool_decide_unpack (NoDup _)). reflexivity.
  - intros user_name Hin. apply list_elem_of_In in Hin. simpl in Hin.
    destruct Hin as [[= <-]|[[=]|[]]]. by eexists.
Defined.

(** X10.  In the single-resource mode, an attribute that, after the
    composition of the server name, matches the filter map makes the check
    allow, wherever it stands among the attributes, when the identity store
    knows the user of every [user] attribute that the group expansion
    applies to. *)
Lemma check_scope_match_users_known (api_handler : handler) (req_scope : string)
    (sub_scope : dict (list string)) (kwargs : dict pyval)
    (filter_ : string) (filter_value : pyval) :
  parsed_scopes api_handler !! req_scope = Some (Filtered sub_scope) →
  dict_in "scope_filter" kwargs = false →
  (filter_, filter_value) ∈ compose_server kwargs →
  filter_matches sub_scope filter_ filter_value = true →
  users_known api_handler sub_scope (compose_server kwargs) →
  _check_scope api_handler req_scope kwargs = Allow.
Proof.
  intros Hscope Hmode Hin Hmatch Hknown.
  rewrite (check_scope_single_resource _ _ sub_scope); [|done..|].
  - rewrite check_filters_users_known; [|done].
    replace (existsb _ _) with true; [done|]. symmetry.
    apply existsb_exists. exists (filter_, filter_value).
    split; [by apply list_elem_of_In|]. unfold allowed_by. simpl.
    by rewrite Hmatch.
  - intros ->. by apply elem_of_nil in Hin.
Qed.

Lemma check_scope_match_users_known_witness :
  _check_scope
    (mk_handler [("s", Filtered [("server", ["carol/web"]); ("group", ["staff"])])])
    "s" [("user", PyStr "carol"); ("server", PyStr "web")] = Allow.
Proof.
  apply (check_scope_match_users_known
           (mk_handler [("s", Filtered [("server", ["carol/web"]); ("group", ["staff"])])])
           "s" [("server", ["carol/web"]); ("group", ["staff"])]
           [("user", PyStr "carol"); ("server", PyStr "web")]
           "server" (PyStr "carol/web")).
  - reflexivity.
  - reflexivity.
  - apply list_elem_of_further, list_elem_of_here.
  - reflexivity.
  - intros user_name Hin _. apply list_elem_of_In in Hin. simpl in Hin.
    destruct Hin as [[= <-]|[[=]|[]]]. by eexists.
Defined.

(** The example of the server composition: no group is granted, so no user
    is looked up, and both orders of the attributes allow. *)
Lemma check_scope_server_composition (api_handler : handler) :
  parsed_scopes api_handler !! "s"
    = Some (Filtered [("server", ["alice/default"])]) →
  _check_scope api_handler "s"
    [("user", PyStr "alice"); ("server", PyStr "default")] = Allow
  ∧ _check_scope api_handler "s"
    [("server", PyStr "default"); ("user", PyStr "alice")] = Allow.
Proof. intros Hscope. unfold _check_scope. rewrite Hscope. split; reflexivity. Qed.


(** * Further properties *)

(** ** What [parse_scopes] computes *)

Lemma record_clause_lookup (sub_scope : dict (list string)) (filter_ k : string) :
  dict_get (record_clause sub_scope filter_) k =
    if decide ((partition "=" filter_).1.1 = k)
    then Some (default [] (dict_get sub_scope k) ++ [(partition "=" filter_).2])
    else dict_get sub_scope k.
Proof.
  unfold record_clause. destruct (partition "=" filter_) as [[key mid] val].
  simpl. case_decide as Hk.
  - subst. by rewrite dict_get_set_eq.
  - by rewrite dict_get_set_ne.
Qed.

Lemma values_for_snoc (n k : string) (l : list string) (scope : string) :
  values_for n k (l ++ [scope]) =
    values_for n k l ++ (if decide (clause_for n k scope) then [val_of scope] else []).
Proof.
  unfold values_for. rewrite filter_app, fmap_app. f_equal.
  rewrite filter_cons, filter_nil. by case_decide.
Qed.

Lemma values_for_absent (n k : string) (l : list string) :
  Forall (λ scope, base_scope_of scope ≠ n) l → values_for n k l = [].
Proof.
  unfold values_for. induction 1 as [|scope l Hscope _ IH]; [done|].
  rewrite filter_cons_False; [done|]. by intros [? _].
Qed.

Lemma parse_scopes_snoc (l : list string) (scope : string) :
  parse_scopes (l ++ [scope]) = parse_scopes l ≫= λ m, parse_scope m scope.
Proof.
  unfold parse_scopes. rewrite parse_scopes_from_app.
  destruct (parse_scopes_from ∅ l) as [m|e]; simpl; [|done].
  by destruct (parse_scope m scope).
Qed.

Lemma denotes_nil : denotes [] ∅.
Proof. intros n. rewrite lookup_empty. constructor. Qed.

Lemma denotes_snoc (l : list string) (m m' : gmap string scope_value)
    (scope : string) :
  denotes l m → parse_scope m scope = Ok m' → denotes (l ++ [scope]) m'.
Proof.
  intros Hd Hstep n. specialize (Hd n).
  destruct (parse_scope_cases m scope) as (v & Heq & Hv).
  rewrite Heq in Hstep. injection Hstep as <-.
  destruct (decide (n = base_scope_of scope)) as [->|Hne].
  - rewrite lookup_insert_eq.
    destruct Hv as [[Hf ->]|[(Hf & Hm & ->)|[(Hf & Hm & ->)|(f & Hf & Hm & ->)]]].
    + apply Exists_app. right. by apply Exists_cons_hd.
    + rewrite Hm in Hd. apply Exists_app. by left.
    + rewrite Hm in Hd. split_and!.
      * rewrite Exists_app, Exists_cons, Exists_nil.
        intros [Hex|[[_ ?]|[]]]; [|done].
        apply Exists_exists in Hex as (x & Hx & Hb & _).
        by apply (proj1 (Forall_forall _ _) Hd x Hx).
      * apply Exists_app. right. by apply Exists_cons_hd.
      * intros k. rewrite values_for_snoc, (values_for_absent _ _ _ Hd).
        rewrite record_clause_lookup. simpl.
        unfold clause_for, key_of, val_of.
        destruct (decide ((partition "=" (filter_of scope)).1.1 = k)) as [Hk|Hk].
        -- by rewrite decide_True.
        -- rewrite decide_False; [done|]. by intros (_ & _ & ?).
    + rewrite Hm in Hd. destruct Hd as (Hnone & Hsome & Hvals). split_and!.
      * rewrite Exists_app, Exists_cons, Exists_nil.
        by intros [Hex|[[_ ?]|[]]].
      * apply Exists_app. by left.
      * intros k. rewrite values_for_snoc, record_clause_lookup, Hvals.
        unfold clause_for, key_of, val_of.
        destruct (decide ((partition "=" (filter_of scope)).1.1 = k)) as [Hk|Hk].
        -- rewrite decide_True; [|done].
           by destruct (values_for (base_scope_of scope) k l).
        -- rewrite decide_False; [|by intros (_ & _ & ?)].
           by rewrite app_nil_r.
  - rewrite lookup_insert_ne; [|done].
    assert (Hvals : ∀ k, values_for n k (l ++ [scope]) = values_for n k l).
    { intros k. rewrite values_for_snoc, decide_False, app_nil_r; [done|].
      intros [? _]. done. }
    destruct (m !! n) as [[|f]|].
    + apply Exists_app. by left.
    + destruct Hd as (Hnone & Hsome & Hf). split_and!.
      * rewrite Exists_app, Exists_cons, Exists_nil.
        intros [?|[[? _]|[]]]; [done|]. by apply Hne.
      * apply Exists_app. by left.
      * intros k. by rewrite Hvals.
    + apply Forall_app. split; [done|]. apply Forall_singleton. by intros ?.
Qed.

Lemma parse_scopes_denotes (l : list string) :
  ∃ m, parse_scopes l = Ok m ∧ denotes l m.
Proof.
  induction l as [|scope l IH] using rev_ind.
  - exists ∅. split; [done | apply denotes_nil].
  - destruct IH as (m & Hm & Hd). rewrite parse_scopes_snoc, Hm. simpl.
    destruct (parse_scope_total m scope) as [m' Hstep].
    exists m'. split; [done|]. by eapply denotes_snoc.
Qed.

(** X1.  The parsed model maps a scope name to the metascope marker exactly
    when the list holds an unfiltered occurrence of that name, wherever in
    the list it stands. *)
Theorem parse_scopes_metascope_iff (l : list string)
    (m : gmap string scope_value) (n : string) :
  parse_scopes l = Ok m →
  m !! n = Some ALL ↔
    ∃ scope, scope ∈ l ∧ base_scope_of scope = n ∧ filter_of scope = "".
Proof.
  intros Hm. destruct (parse_scopes_denotes l) as (m0 & Hm0 & Hd).
  rewrite Hm in Hm0. injection Hm0 as <-. specialize (Hd n). split.
  - intros Hn. rewrite Hn in Hd. apply Exists_exists in Hd as (scope & ? & ? & ?).
    by exists scope.
  - intros (scope & Hin & Hb & Hf).
    assert (Hex : Exists (unfiltered n) l).
    { apply Exists_exists. by exists scope. }
    destruct (m !! n) as [[|f]|]; [done| |].
    + by destruct Hd as [? _].
    + by destruct (proj1 (Forall_forall _ _) Hd scope Hin).
Qed.

Lemma parse_scopes_metascope_iff_witness :
  ({[ "t" := Filtered [("user", ["a"])]; "s" := ALL ]} : gmap string scope_value)
    !! "s" = Some ALL ↔
    ∃ scope, scope ∈ ["s!user=a"; "t!user=a"; "s"]
             ∧ base_scope_of scope = "s" ∧ filter_of scope = "".
Proof.
  apply (parse_scopes_metascope_iff ["s!user=a"; "t!user=a"; "s"]). reflexivity.
Defined.

(** X2.  The scope names of the parsed model are the base scopes of the
    list: a name has no value exactly when no scope string of the list has
    it as its base scope. *)
Theorem parse_scopes_absent_iff (l : list string)
    (m : gmap string scope_value) (n : string) :
  parse_scopes l = Ok m →
  m !! n = None ↔ ∀ scope, scope ∈ l → base_scope_of scope ≠ n.
Proof.
  intros Hm. destruct (parse_scopes_denotes l) as (m0 & Hm0 & Hd).
  rewrite Hm in Hm0. injection Hm0 as <-. specialize (Hd n). split.
  - intros Hn. rewrite Hn in Hd. by apply Forall_forall.
  - intros Hall.
    assert (Hno : ¬ Exists (λ scope, base_scope_of scope = n) l).
    { intros Hex. apply Exists_exists in Hex as (scope & Hin & Hb).
      by apply (Hall scope Hin). }
    destruct (m !! n) as [[|f]|]; [| |done].
    + destruct Hno. apply Exists_exists in Hd as (scope & ? & ? & _).
      apply Exists_exists. by exists scope.
    + by destruct Hd as (_ & ? & _).
Qed.

Lemma parse_scopes_absent_iff_witness :
  ({[ "t" := Filtered [("user", ["a"])]; "s" := ALL ]} : gmap string scope_value)
    !! "u" = None ↔
    ∀ scope, scope ∈ ["s!user=a"; "t!user=a"; "s"] → base_scope_of scope ≠ "u".
Proof.
  apply (parse_scopes_absent_iff ["s!user=a"; "t!user=a"; "s"]). reflexivity.
Defined.

(** X3.  When the parsed model gives a scope name a filter map, the list
    has no unfiltered occurrence of the name, and the filter map gives each
    key the values of the clauses that the list holds for that name and key,
    in the order of the list and with their repetitions; a key that no
    clause names is absent. *)
Theorem parse_scopes_filter_values (l : list string)
    (m : gmap string scope_value) (n : string) (sub_scope : dict (list string)) :
  parse_scopes l = Ok m →
  m !! n = Some (Filtered sub_scope) →
  (∀ scope, scope ∈ l → base_scope_of scope = n → filter_of scope ≠ "")
  ∧ ∀ k, dict_get sub_scope k =
           match values_for n k l with
           | [] => None
           | values => Some values
           end.
Proof.
  intros Hm Hn. destruct (parse_scopes_denotes l) as (m0 & Hm0 & Hd).
  rewrite Hm in Hm0. injection Hm0 as <-. specialize (Hd n).
  rewrite Hn in Hd. destruct Hd as (Hnone & _ & Hvals). split; [|done].
  intros scope Hin Hb Hf. apply Hnone. apply Exists_exists. by exists scope.
Qed.

Lemma parse_scopes_filter_values_witness :
  (∀ scope, scope ∈ ["s!user=a"; "t!user=c"; "s!group=g"; "s!user=b"; "s!user=a"] →
     base_scope_of scope = "s" → filter_of scope ≠ "")
  ∧ ∀ k, dict_get [("user", ["a"; "b"; "a"]); ("group", ["g"])] k =
           match values_for "s" k
                   ["s!user=a"; "t!user=c"; "s!group=g"; "s!user=b"; "s!user=a"] with
           | [] => None
           | values => Some values
           end.
Proof.
  apply (parse_scopes_filter_values
           ["s!user=a"; "t!user=c"; "s!group=g"; "s!user=b"; "s!user=a"]
           {[ "t" := Filtered [("user", ["c"])];
              "s" := Filtered [("user", ["a"; "b"; "a"]); ("group", ["g"])] ]} "s");
    reflexivity.
Defined.

(** ** The order of the granted scopes *)

Lemma values_for_Permutation (n k : string) (l1 l2 : list string) :
  l1 ≡ₚ l2 → values_for n k l1 ≡ₚ values_for n k l2.
Proof. intros Hperm. unfold values_for. by rewrite Hperm. Qed.

Lemma denotes_Permutation (l1 l2 : list string) (m1 m2 : gmap string scope_value) :
  l1 ≡ₚ l2 → denotes l1 m1 → denotes l2 m2 →
  ∀ n, scope_value_equiv (m1 !! n) (m2 !! n).
Proof.
  intros Hperm Hd1 Hd2 n. specialize (Hd1 n). specialize (Hd2 n).
  unfold scope_value_equiv.
  destruct (m1 !! n) as [[|f1]|], (m2 !! n) as [[|f2]|]; try done.
  - destruct Hd2 as [Hno _]. apply Hno. by rewrite <- Hperm.
  - apply Exists_exists in Hd1 as (scope & Hin & Hb & _).
    rewrite Hperm in Hin. by apply (proj1 (Forall_forall _ _) Hd2 scope Hin).
  - destruct Hd1 as [Hno _]. apply Hno. by rewrite Hperm.
  - destruct Hd1 as (_ & _ & Hv1), Hd2 as (_ & _ & Hv2). intros k.
    rewrite Hv1, Hv2.
    pose proof (values_for_Permutation n k l1 l2 Hperm) as Hk.
    destruct (values_for n k l1) as [|a1 r1], (values_for n k l2) as [|a2 r2];
      try done.
    + by apply Permutation_nil_cons in Hk.
    + symmetry in Hk. by apply Permutation_nil_cons in Hk.
  - destruct Hd1 as (_ & Hex & _).
    apply Exists_exists in Hex as (scope & Hin & Hb).
    rewrite Hperm in Hin. by apply (proj1 (Forall_forall _ _) Hd2 scope Hin).
  - apply Exists_exists in Hd2 as (scope & Hin & Hb & _).
    rewrite <- Hperm in Hin. by apply (proj1 (Forall_forall _ _) Hd1 scope Hin).
  - destruct Hd2 as (_ & Hex & _).
    apply Exists_exists in Hex as (scope & Hin & Hb).
    rewrite <- Hperm in Hin. by apply (proj1 (Forall_forall _ _) Hd1 scope Hin).
Qed.

Lemma py_in_Permutation (v : pyval) (l1 l2 : list string) :
  l1 ≡ₚ l2 → py_in v l1 = py_in v l2.
Proof.
  intros Hperm. destruct v as [|s]; simpl; [done|].
  apply bool_decide_ext. by rewrite Hperm.
Qed.

Section filter_maps_equiv.
Context (sub_scope1 sub_scope2 : dict (list string)).
Hypothesis Hequiv :
  scope_value_equiv (Some (Filtered sub_scope1)) (Some (Filtered sub_scope2)).

Lemma filter_matches_equiv (filter_ : string) (filter_value : pyval) :
  filter_matches sub_scope1 filter_ filter_value
  = filter_matches sub_scope2 filter_ filter_value.
Proof.
  unfold filter_matches. specialize (Hequiv filter_).
  destruct (dict_get sub_scope1 filter_), (dict_get sub_scope2 filter_);
    try done.
  by apply py_in_Permutation.
Qed.

Lemma dict_in_equiv (k : string) : dict_in k sub_scope1 = dict_in k sub_scope2.
Proof.
  unfold dict_in. specialize (Hequiv k).
  by destruct (dict_get sub_scope1 k), (dict_get sub_scope2 k).
Qed.

Lemma needs_scope_expansion_equiv (filter_ : string) (filter_value : pyval) :
  _needs_scope_expansion filter_ filter_value sub_scope1
  = _needs_scope_expansion filter_ filter_value sub_scope2.
Proof.
  unfold _needs_scope_expansion. rewrite dict_in_equiv.
  destruct (negb _); [done|]. specialize (Hequiv "user").
  destruct (dict_get sub_scope1 "user"), (dict_get sub_scope2 "user"); try done.
  by rewrite (py_in_Permutation _ _ _ Hequiv).
Qed.

Lemma check_filters_equiv (api_handler : handler) (items : list (string * pyval)) :
  check_filters api_handler sub_scope1 items
  = check_filters api_handler sub_scope2 items.
Proof.
  induction items as [|[filter_ filter_value] items IH]; simpl; [done|].
  rewrite filter_matches_equiv, needs_scope_expansion_equiv, IH.
  destruct (filter_matches sub_scope2 filter_ filter_value); [done|].
  destruct (_needs_scope_expansion filter_ filter_value sub_scope2); [|done].
  unfold dict_getitem. pose proof (Hequiv "group") as Hgroup.
  destruct (dict_get sub_scope1 "group") as [g1|],
    (dict_get sub_scope2 "group") as [g2|]; try done.
  simpl. unfold _check_user_in_expanded_scope.
  destruct (find_user api_handler filter_value) as [user|]; [|done].
  by rewrite (list_to_set_perm_L (C:=gset string) g1 g2 Hgroup).
Qed.
End filter_maps_equiv.

(** X4.  Two lists of granted scopes that differ only in the order of their
    scope strings parse to the same scope names, with the marker for the
    same names, and with filter maps that have the same keys and, for each
    key, the same values up to their order. *)
Theorem parse_scopes_Permutation (l1 l2 : list string)
    (m1 m2 : gmap string scope_value) :
  l1 ≡ₚ l2 → parse_scopes l1 = Ok m1 → parse_scopes l2 = Ok m2 →
  ∀ n, scope_value_equiv (m1 !! n) (m2 !! n).
Proof.
  intros Hperm H1 H2.
  destruct (parse_scopes_denotes l1) as (m1' & H1' & Hd1).
  destruct (parse_scopes_denotes l2) as (m2' & H2' & Hd2).
  rewrite H1 in H1'. injection H1' as <-.
  rewrite H2 in H2'. injection H2' as <-.
  by apply (denotes_Permutation l1 l2).
Qed.

Lemma parse_scopes_Permutation_witness :
  scope_value_equiv
    (({[ "s" := Filtered [("user", ["a"; "b"]); ("group", ["g"])] ]}
       : gmap string scope_value) !! "s")
    (({[ "s" := Filtered [("group", ["g"]); ("user", ["b"; "a"])] ]}
       : gmap string scope_value) !! "s").
Proof.
  apply (parse_scopes_Permutation
           ["s!user=a"; "s!user=b"; "s!group=g"]
           ["s!group=g"; "s!user=b"; "s!user=a"]).
  - apply (bool_decide_unpack (_ ≡ₚ _)). reflexivity.
  - reflexivity.
  - reflexivity.
Defined.

(** X5.  The order of the granted scopes does not change a single-resource
    decision: with the same identity store and the same attributes (no
    enumeration marker), the models parsed from two lists that are
    permutations of each other make [_check_scope] return or raise the
    same. *)
Theorem check_scope_grant_order (l1 l2 : list string) (h1 h2 : handler)
    (req_scope : string) (kwargs : dict pyval) :
  l1 ≡ₚ l2 →
  parse_scopes l1 = Ok (parsed_scopes h1) →
  parse_scopes l2 = Ok (parsed_scopes h2) →
  find_user h1 = find_user h2 →
  dict_in "scope_filter" kwargs = false →
  _check_scope h1 req_scope kwargs = _check_scope h2 req_scope kwargs.
Proof.
  intros Hperm H1 H2 Hfind Hmode.
  destruct (parse_scopes_denotes l1) as (m1' & H1' & Hd1).
  destruct (parse_scopes_denotes l2) as (m2' & H2' & Hd2).
  rewrite H1 in H1'. injection H1' as <-.
  rewrite H2 in H2'. injection H2' as <-.
  pose proof (denotes_Permutation l1 l2 _ _ Hperm Hd1 Hd2 req_scope) as Heq.
  unfold _check_scope. rewrite dict_in_compose_server, Hmode.
  destruct (parsed_scopes h1 !! req_scope) as [[|f1]|],
    (parsed_scopes h2 !! req_scope) as [[|f2]|]; try done.
  destruct (compose_server kwargs) as [|item items]; [done|].
  rewrite (check_filters_equiv f1 f2 Heq).
  generalize (item :: items). intros all.
  induction all as [|[filter_ filter_value] all IH]; simpl; [done|].
  rewrite IH. unfold _check_user_in_expanded_scope. by rewrite Hfind.
Qed.

Lemma check_scope_grant_order_witness :
  _check_scope
    (mk_handler [("s", Filtered [("user", ["a"; "b"]); ("group", ["admins"])])])
    "s" [("user", PyStr "carol")]
  = _check_scope
    (mk_handler [("s", Filtered [("group", ["admins"]); ("user", ["b"; "a"])])])
    "s" [("user", PyStr "carol")].
Proof.
  apply (check_scope_grant_order
           ["s!user=a"; "s!user=b"; "s!group=admins"]
           ["s!group=admins"; "s!user=b"; "s!user=a"]).
  - apply (bool_decide_unpack (_ ≡ₚ _)). reflexivity.
  - reflexivity.
  - reflexivity.
  - reflexivity.
  - reflexivity.
Defined.

(** ** From granted scopes to decisions *)

Lemma string_app_cons_not_empty (a b : string) (c : ascii) :
  a +:+ String c b ≠ "".
Proof. by destruct a. Qed.

(** The parts of a scope string of the form [name!key=value]. *)
Lemma scope_string_parts (n k v : string) :
  contains "!" n = false → contains "=" k = false →
  base_scope_of (n +:+ "!" +:+ k +:+ "=" +:+ v) = n
  ∧ filter_of (n +:+ "!" +:+ k +:+ "=" +:+ v) = k +:+ "=" +:+ v
  ∧ filter_of (n +:+ "!" +:+ k +:+ "=" +:+ v) ≠ ""
  ∧ key_of (n +:+ "!" +:+ k +:+ "=" +:+ v) = k
  ∧ val_of (n +:+ "!" +:+ k +:+ "=" +:+ v) = v.
Proof.
  intros Hn Hk.
  destruct (base_scope_of_clause n (k +:+ "=" +:+ v) Hn) as [Hb Hf].
  unfold key_of, val_of. rewrite Hb, Hf.
  change ("=" +:+ v) with (String "=" v).
  rewrite (partition_app _ _ _ Hk).
  split_and!; try done. apply string_app_cons_not_empty.
Qed.

Lemma compose_server_singleton (k : string) (v : pyval) :
  compose_server [(k, v)] = [(k, v)].
Proof.
  unfold compose_server. simpl.
  destruct (decide (k = "user")) as [->|]; [|done].
  by rewrite decide_False.
Qed.

(** X6.  A granted scope authorises the requests it names.  When the list
    of granted scopes holds the plain scope name [n], every check of [n]
    allows, whatever the attributes.  When it holds [n!k=v], the
    single-resource check of [n] for the one attribute [k = v] allows. *)
Theorem granted_scope_authorises (l : list string) (api_handler : handler)
    (n : string) :
  parse_scopes l = Ok (parsed_scopes api_handler) →
  contains "!" n = false →
  (∀ kwargs, n ∈ l → _check_scope api_handler n kwargs = Allow)
  ∧ (∀ k v, contains "=" k = false → k ≠ "scope_filter" →
       (n +:+ "!" +:+ k +:+ "=" +:+ v) ∈ l →
       _check_scope api_handler n [(k, PyStr v)] = Allow).
Proof.
  intros Hm Hn. destruct (parse_scopes_denotes l) as (m & Hm' & Hd).
  rewrite Hm in Hm'. injection Hm' as <-. specialize (Hd n). split.
  - intros kwargs Hin. destruct (base_scope_of_plain n Hn) as [Hb Hf].
    unfold _check_scope.
    destruct (parsed_scopes api_handler !! n) as [[|f]|]; [done| |].
    + destruct Hd as [Hno _]. destruct Hno. apply Exists_exists. by exists n.
    + by destruct (proj1 (Forall_forall _ _) Hd n Hin).
  - intros k v Hk Hmarker Hin.
    destruct (scope_string_parts n k v Hn Hk) as (Hb & _ & Hf & Hkey & Hval).
    unfold _check_scope. rewrite compose_server_singleton.
    destruct (parsed_scopes api_handler !! n) as [[|f]|]; [done| |].
    + destruct Hd as (_ & _ & Hvals).
      unfold dict_in. simpl. rewrite decide_False; [|done].
      unfold filter_matches. rewrite Hvals.
      assert (Hv : v ∈ values_for n k l).
      { unfold values_for. apply list_elem_of_fmap.
        exists (n +:+ "!" +:+ k +:+ "=" +:+ v). split; [done|].
        apply list_elem_of_filter. by split. }
      destruct (values_for n k l) as [|a values]; [by apply elem_of_nil in Hv|].
      simpl. by rewrite bool_decide_eq_true_2.
    + by destruct (proj1 (Forall_forall _ _) Hd _ Hin).
Qed.

Lemma granted_scope_authorises_witness :
  _check_scope
    (mk_handler [("users:servers", Filtered [("server", ["bob/web"])]);
                 ("users", ALL)]) "users" [("scope_filter", PyNone)] = Allow
  ∧ _check_scope
      (mk_handler [("users:servers", Filtered [("server", ["bob/web"])]);
                   ("users", ALL)]) "users:servers"
      [("server", PyStr "bob/web")] = Allow.
Proof.
  split.
  - apply (proj1 (granted_scope_authorises
                    ["users:servers!server=bob/web"; "users"]
                    (mk_handler [("users:servers", Filtered [("server", ["bob/web"])]);
                                 ("users", ALL)]) "users" eq_refl eq_refl)).
    apply list_elem_of_further, list_elem_of_here.
  - apply (proj2 (granted_scope_authorises
                    ["users:servers!server=bob/web"; "users"]
                    (mk_handler [("users:servers", Filtered [("server", ["bob/web"])]);
                                 ("users", ALL)]) "users:servers" eq_refl eq_refl)
             "server" "bob/web").
    + reflexivity.
    + discriminate.
    + apply list_elem_of_here.
Defined.

(** ** The user metascope, parsed and checked *)

Lemma elem_of_get_user_scopes (u x : string) :
  x ∈ get_user_scopes u ↔
    ∃ scope,
      scope ∈ user_scope_list ++ ((λ scope, "read:" +:+ scope) <$> user_scope_list)
      ∧ x = scope +:+ "!" +:+ "user" +:+ "=" +:+ u.
Proof.
  unfold get_user_scopes. rewrite elem_of_list_to_set, list_elem_of_fmap.
  split; intros (scope & ? & ?); by exists scope.
Qed.

Lemma user_scope_names_plain (scope : string) :
  scope ∈ user_scope_list ++ ((λ scope, "read:" +:+ scope) <$> user_scope_list) →
  contains "!" scope = false.
Proof.
  revert scope. apply Forall_forall.
  apply (bool_decide_unpack (Forall _ _)). reflexivity.
Qed.

Lemma filter_unique {A : Type} (P : A → Prop) `{!∀ x, Decision (P x)}
    (l : list A) (a : A) :
  NoDup l → (∀ x, x ∈ l ∧ P x ↔ x = a) → filter P l = [a].
Proof.
  intros Hnd Hiff. apply Permutation_singleton_r.
  apply NoDup_Permutation; [by apply NoDup_filter | apply NoDup_singleton|].
  intros x. rewrite list_elem_of_filter, list_elem_of_singleton.
  rewrite <- Hiff. tauto.
Qed.

Lemma filter_none {A : Type} (P : A → Prop) `{!∀ x, Decision (P x)} (l : list A) :
  Forall (λ x, ¬ P x) l → filter P l = [].
Proof.
  induction 1 as [|x l Hx _ IH]; [done|]. by rewrite filter_cons_False.
Qed.

(** X7.  The expansion of the user metascope grants the user and nobody
    else.  Let the scope model be parsed from the twelve strings of
    [get_user_scopes u], in any order.  Each of the twelve scope names gets a
    filter map whose only key is [user], with the single value [u]; the
    check of such a scope allows the attribute [user = u] and raises the 404
    error for any other user, without asking the identity store; and the
    check of any other scope name is denied. *)
Theorem user_scopes_grant_own_user (u : string) (l : list string)
    (api_handler : handler) (scope : string) :
  l ≡ₚ elements (get_user_scopes u) →
  parse_scopes l = Ok (parsed_scopes api_handler) →
  (scope ∈ user_scope_list ++ ((λ scope, "read:" +:+ scope) <$> user_scope_list) →
     (∃ sub_scope,
         parsed_scopes api_handler !! scope = Some (Filtered sub_scope)
         ∧ ∀ k, dict_get sub_scope k = if decide (k = "user") then Some [u] else None)
     ∧ _check_scope api_handler scope [("user", PyStr u)] = Allow
     ∧ ∀ other, other ≠ PyStr u →
         _check_scope api_handler scope [("user", other)] = NotFoundOrForbidden)
  ∧ (scope ∉ user_scope_list ++ ((λ scope, "read:" +:+ scope) <$> user_scope_list) →
     ∀ kwargs, _check_scope api_handler scope kwargs = Deny).
Proof.
  intros Hperm Hm.
  assert (Hnd : NoDup l) by (rewrite Hperm; apply NoDup_elements).
  assert (Hl : ∀ x, x ∈ l ↔ ∃ b,
             b ∈ user_scope_list ++ ((λ scope, "read:" +:+ scope) <$> user_scope_list)
             ∧ x = b +:+ "!" +:+ "user" +:+ "=" +:+ u).
  { intros x. rewrite Hperm, elem_of_elements. apply elem_of_get_user_scopes. }
  assert (Hparts : ∀ x, x ∈ l →
             base_scope_of x
               ∈ user_scope_list ++ ((λ scope, "read:" +:+ scope) <$> user_scope_list)
             ∧ x = base_scope_of x +:+ "!" +:+ "user" +:+ "=" +:+ u
             ∧ filter_of x ≠ "" ∧ key_of x = "user" ∧ val_of x = u).
  { intros x Hx. apply Hl in Hx as (b & Hb & ->).
    destruct (scope_string_parts b "user" u (user_scope_names_plain b Hb) eq_refl)
      as (-> & _ & ? & ? & ?). done. }
  destruct (parse_scopes_denotes l) as (m & Hm' & Hd).
  rewrite Hm in Hm'. injection Hm' as <-. specialize (Hd scope). split.
  - intros Hscope.
    assert (Hin : (scope +:+ "!" +:+ "user" +:+ "=" +:+ u) ∈ l).
    { apply Hl. by exists scope. }
    destruct (scope_string_parts scope "user" u
                (user_scope_names_plain scope Hscope) eq_refl)
      as (Hb & _ & Hf & Hkey & Hval).
    assert (Hsub : ∃ sub_scope,
               parsed_scopes api_handler !! scope = Some (Filtered sub_scope)
               ∧ ∀ k, dict_get sub_scope k
                      = if decide (k = "user") then Some [u] else None).
    { destruct (parsed_scopes api_handler !! scope) as [[|f]|].
      - apply Exists_exists in Hd as (x & Hx & _ & Hempty).
        by destruct (Hparts x Hx) as (_ & _ & ? & _).
      - exists f. split; [done|]. destruct Hd as (_ & _ & Hvals).
        intros k. rewrite Hvals. unfold values_for. case_decide as Hk.
        + subst k.
          rewrite (filter_unique _ l (scope +:+ "!" +:+ "user" +:+ "=" +:+ u) Hnd).
          * simpl. by rewrite Hval.
          * intros x. split.
            -- intros (Hx & Hbx & _). destruct (Hparts x Hx) as (_ & -> & _).
               by rewrite Hbx.
            -- intros ->. done.
        + replace (filter (clause_for scope k) l) with (@nil string); [done|].
          symmetry. apply filter_none, Forall_forall.
          intros x Hx (_ & _ & Hkx). destruct (Hparts x Hx) as (_ & _ & _ & ? & _).
          congruence.
      - by destruct (proj1 (Forall_forall _ _) Hd _ Hin). }
    destruct Hsub as (f & Hscope_f & Hf_lookup). split_and!.
    + by exists f.
    + unfold _check_scope. rewrite compose_server_singleton, Hscope_f. simpl.
      unfold filter_matches. rewrite Hf_lookup. simpl.
      by rewrite bool_decide_eq_true_2; [|apply list_elem_of_here].
    + intros other Hother.
      unfold _check_scope. rewrite compose_server_singleton, Hscope_f. simpl.
      unfold filter_matches, _needs_scope_expansion, dict_in.
      rewrite !Hf_lookup. simpl.
      destruct other as [|s]; simpl; [done|].
      rewrite bool_decide_eq_false_2; [done|].
      intros Hs. apply list_elem_of_singleton in Hs. congruence.
  - intros Hscope kwargs. unfold _check_scope.
    destruct (parsed_scopes api_handler !! scope) as [[|f]|]; [| |done].
    + apply Exists_exists in Hd as (x & Hx & _ & Hempty).
      by destruct (Hparts x Hx) as (_ & _ & ? & _).
    + destruct Hd as (_ & Hex & _).
      apply Exists_exists in Hex as (x & Hx & Hbx).
      destruct (Hparts x Hx) as (? & _). congruence.
Qed.

Lemma user_scopes_grant_own_user_witness :
  _check_scope alice_handler "read:users:servers" [("user", PyStr "alice")] = Allow
  ∧ _check_scope alice_handler "read:users:servers" [("user", PyStr "bob")]
    = NotFoundOrForbidden
  ∧ _check_scope alice_handler "groups" [("group", PyStr "staff")] = Deny.
Proof.
  assert (Hparse : parse_scopes (elements (get_user_scopes "alice"))
                   = Ok (parsed_scopes alice_handler)).
  { vm_compute. reflexivity. }
  split_and!.
  - apply (proj1 (user_scopes_grant_own_user "alice" _ alice_handler
                    "read:users:servers" (reflexivity _) Hparse)).
    apply (bool_decide_unpack (_ ∈ _)). reflexivity.
  - apply (proj1 (user_scopes_grant_own_user "alice" _ alice_handler
                    "read:users:servers" (reflexivity _) Hparse)).
    + apply (bool_decide_unpack (_ ∈ _)). reflexivity.
    + discriminate.
  - apply (proj2 (user_scopes_grant_own_user "alice" _ alice_handler
                    "groups" (reflexivity _) Hparse)).
    apply (bool_decide_unpack (_ ∉ _)). reflexivity.
Defined.

(** ** Single-resource decisions *)

(** X8.  In the single-resource mode a check with at least one attribute
    never returns [False]: it returns [True] or raises the 404 error; in
    particular it raises no [KeyError] for the [group] key. *)
Theorem check_scope_single_resource_outcomes (api_handler : handler)
    (req_scope : string) (sub_scope : dict (list string)) (kwargs : dict pyval) :
  parsed_scopes api_handler !! req_scope = Some (Filtered sub_scope) →
  dict_in "scope_filter" kwargs = false →
  kwargs ≠ [] →
  _check_scope api_handler req_scope kwargs = Allow
  ∨ _check_scope api_handler req_scope kwargs = NotFoundOrForbidden.
Proof.
  intros Hscope Hmode Hne.
  rewrite (check_scope_single_resource _ _ _ _ Hscope Hmode Hne).
  apply check_filters_allow_or_not_found.
Qed.

Lemma check_scope_single_resource_outcomes_witness :
  _check_scope ghost_handler "s" ghost_user_first = Allow
  ∨ _check_scope ghost_handler "s" ghost_user_first = NotFoundOrForbidden.
Proof.
  apply (check_scope_single_resource_outcomes ghost_handler "s" ghost_scope);
    [reflexivity | reflexivity | discriminate].
Defined.

(** X11.  A filter map without a [group] key is decided by the attributes
    alone: the identity store is not consulted, and the check allows exactly
    when some attribute, after the composition of the server name, is among
    the granted values of its key; otherwise it raises the 404 error. *)
Theorem check_scope_without_group (api_handler : handler) (req_scope : string)
    (sub_scope : dict (list string)) (kwargs : dict pyval) :
  parsed_scopes api_handler !! req_scope = Some (Filtered sub_scope) →
  dict_in "group" sub_scope = false →
  dict_in "scope_filter" kwargs = false →
  kwargs ≠ [] →
  _check_scope api_handler req_scope kwargs =
    if existsb (λ item, filter_matches sub_scope item.1 item.2)
         (compose_server kwargs)
    then Allow else NotFoundOrForbidden.
Proof.
  intros Hscope Hgroup Hmode Hne.
  rewrite (check_scope_single_resource _ _ _ _ Hscope Hmode Hne).
  assert (Hno : ∀ filter_ filter_value,
             _needs_scope_expansion filter_ filter_value sub_scope = false).
  { intros filter_ filter_value. unfold _needs_scope_expansion.
    by rewrite Hgroup, andb_false_r. }
  rewrite check_filters_users_known.
  - replace (existsb (allowed_by api_handler sub_scope) (compose_server kwargs))
      with (existsb (λ item, filter_matches sub_scope item.1 item.2)
              (compose_server kwargs)); [done|].
    induction (compose_server kwargs) as [|item items IH]; simpl; [done|].
    rewrite IH. unfold allowed_by. by rewrite Hno, orb_false_r.
  - intros user_name _ Hneeds. by rewrite Hno in Hneeds.
Qed.

Lemma check_scope_without_group_witness :
  _check_scope
    {| parsed_scopes := {[ "s" := Filtered [("server", ["ghost/x"])] ]};
       find_user := λ _, None; db := no_db |}
    "s" ghost_user_first = Allow.
Proof.
  apply (check_scope_without_group
           {| parsed_scopes := {[ "s" := Filtered [("server", ["ghost/x"])] ]};
              find_user := λ _, None; db := no_db |}
           "s" [("server", ["ghost/x"])] ghost_user_first);
    [reflexivity | reflexivity | reflexivity | discriminate].
Defined.

(** ** The enumeration mode *)

Lemma get_scope_filter_untranslated (db : orm.Session) (req_scope : string)
    (sub_scope : dict (list string)) :
  req_scope ∉ ["read:users"; "read:services"; "read:groups"] →
  _get_scope_filter db req_scope sub_scope
    = Raise (AttributeError "Internal error: inconsistent scope situation").
Proof.
  intros Hreq. unfold _get_scope_filter.
  replace (dict_in req_scope scope_translator) with false; [done|].
  symmetry. unfold dict_in, scope_translator. simpl.
  repeat (case_decide; [subst; destruct Hreq; set_solver|]). done.
Qed.

Lemma get_scope_filter_translated (db : orm.Session) (req_scope kind : string)
    (k : string) (values : list string) (rest : dict (list string)) :
  dict_get scope_translator req_scope = Some kind →
  ∃ names, _get_scope_filter db req_scope ((k, values) :: rest) = Ok names
    ∧ ∀ x, x ∈ names ↔
        x ∈ orm.query_names_in db kind values
        ∨ (req_scope = "read:users"
           ∧ ∃ group_names,
               dict_get ((k, values) :: rest) "group" = Some group_names
               ∧ x ∈ orm.query_users_in_groups db group_names).
Proof.
  intros Hkind. unfold _get_scope_filter, dict_in, dict_getitem.
  rewrite Hkind. simpl.
  assert (Husers : kind = "users" ↔ req_scope = "read:users").
  { unfold scope_translator in Hkind. simpl in Hkind.
    repeat (case_decide; [injection Hkind as <-; subst; done|]). done. }
  destruct (decide (k = "group")) as [->|Hk]; simpl.
  - case_bool_decide as Hu; simpl.
    + eexists. split; [done|]. intros x.
      rewrite elem_of_union, !elem_of_list_to_set. split.
      * intros [?|?]; [by left|]. right. split; [by apply Husers|].
        by exists values.
      * intros [?|(_ & g & [= <-] & ?)]; [by left | by right].
    + eexists. split; [done|]. intros x. rewrite elem_of_list_to_set.
      split; [by left|]. intros [?|(Hr & _)]; [done|].
      by apply Husers in Hr.
  - destruct (dict_get rest "group") as [group_names|] eqn:Hg; simpl.
    + case_bool_decide as Hu; simpl.
      * eexists. split; [done|]. intros x.
        rewrite elem_of_union, !elem_of_list_to_set. split.
        -- intros [?|?]; [by left|]. right. split; [by apply Husers|].
           by exists group_names.
        -- intros [?|(_ & g & [= <-] & ?)]; [by left | by right].
      * eexists. split; [done|]. intros x. rewrite elem_of_list_to_set.
        split; [by left|]. intros [?|(Hr & _)]; [done|].
        by apply Husers in Hr.
    + eexists. split; [done|]. intros x. rewrite elem_of_list_to_set.
      split; [by left|]. by intros [?|(_ & g & [=] & _)].
Qed.



(** X13.  The enumeration mode on a parsed model.  When the scope model
    comes from [parse_scopes] and the enumeration marker is among the
    attributes, the check of [read:users], [read:services] or [read:groups]
    raises nothing: it returns [False] for a scope the model does not hold,
    [True] for the metascope marker and a set of names for a filter map
    (which [parse_scopes] never leaves empty).  The check of any other scope
    that holds a filter map raises [AttributeError]. *)
Theorem check_scope_enumeration_parsed (l : list string) (api_handler : handler)
    (req_scope : string) (kwargs : dict pyval) :
  parse_scopes l = Ok (parsed_scopes api_handler) →
  dict_in "scope_filter" kwargs = true →
  (req_scope ∈ ["read:users"; "read:services"; "read:groups"] →
     match parsed_scopes api_handler !! req_scope with
     | None => _check_scope api_handler req_scope kwargs = Deny
     | Some ALL => _check_scope api_handler req_scope kwargs = Allow
     | Some (Filtered _) =>
         ∃ names, _check_scope api_handler req_scope kwargs = Ok (RSet names)
     end)
  ∧ (req_scope ∉ ["read:users"; "read:services"; "read:groups"] →
     ∀ sub_scope,
       parsed_scopes api_handler !! req_scope = Some (Filtered sub_scope) →
       _check_scope api_handler req_scope kwargs
         = Raise (AttributeError "Internal error: inconsistent scope situation")).
Proof.
  intros Hparse Hmode. unfold _check_scope.
  rewrite dict_in_compose_server, Hmode. split.
  - intros Hreq.
    destruct (parsed_scopes api_handler !! req_scope) as [[|sub_scope]|] eqn:Hscope;
      [done| |done].
    assert (Hne : sub_scope ≠ []).
    { eapply (parse_scopes_from_inhabited l ∅); [|exact Hparse|exact Hscope].
      intros n f Hn. by rewrite lookup_empty in Hn. }
    assert (Hkind : ∃ kind, dict_get scope_translator req_scope = Some kind).
    { apply list_elem_of_In in Hreq. simpl in Hreq.
      destruct Hreq as [<-|[<-|[<-|[]]]]; by eexists. }
    destruct Hkind as [kind Hkind].
    destruct sub_scope as [|[k values] rest]; [done|].
    destruct (get_scope_filter_translated (db api_handler) req_scope kind
                k values rest Hkind) as (names & -> & _).
    by exists names.
  - intros Hreq sub_scope ->.
    by rewrite (get_scope_filter_untranslated (db api_handler) req_scope sub_scope Hreq).
Qed.

Lemma check_scope_enumeration_parsed_witness :
  (∃ names,
      _check_scope
        (mk_handler [("read:users", Filtered [("user", ["alice"; "bob"])])])
        "read:users" [("scope_filter", PyNone)] = Ok (RSet names)).
Proof.
  apply (proj1 (check_scope_enumeration_parsed
                  ["read:users!user=alice"; "read:users!user=bob"]
                  (mk_handler [("read:users", Filtered [("user", ["alice"; "bob"])])])
                  "read:users" [("scope_filter", PyNone)] eq_refl eq_refl)).
  apply list_elem_of_here.
Defined.

(** ** The decorator *)

Lemma dict_get_app {V : Type} (d1 d2 : dict V) (k : string) :
  dict_get (d1 ++ d2) k =
    match dict_get d1 k with
    | Some v => Some v
    | None => dict_get d2 k
    end.
Proof.
  induction d1 as [|[k0 v0] d1 IH]; simpl; [done|]. by case_decide.
Qed.

Lemma dict_set_fresh {V : Type} (d : dict V) (k : string) (v : V) :
  dict_get d k = None → dict_set d k v = d ++ [(k, v)].
Proof.
  induction d as [|[k0 v0] d IH]; simpl; [done|].
  case_decide; [done|]. intros Hd. by rewrite (IH Hd).
Qed.

Lemma bind_resources_omap (arguments : dict pyval) (iteration : list string)
    (s_kwargs : dict pyval) :
  NoDup iteration →
  (∀ resource, resource ∈ iteration → dict_get s_kwargs resource = None) →
  bind_resources arguments iteration s_kwargs
    = s_kwargs ++ omap (bound_resource arguments) iteration.
Proof.
  revert s_kwargs. induction iteration as [|resource iteration IH];
    intros s_kwargs Hnd Hfresh; simpl.
  - by rewrite app_nil_r.
  - apply NoDup_cons in Hnd as [Hr Hnd]. unfold bound_resource at 1.
    destruct (dict_get arguments (resource +:+ "_name")) as [v|]; simpl.
    + rewrite dict_set_fresh; [|apply Hfresh, list_elem_of_here].
      rewrite IH; [by rewrite <- app_assoc | done |].
      intros r Hin. rewrite dict_get_app, Hfresh; [|by apply list_elem_of_further].
      simpl. rewrite decide_False; [done|]. by intros ->.
    + apply IH; [done|]. intros r Hin. by apply Hfresh, list_elem_of_further.
Qed.

Lemma elem_of_bound_resources (arguments : dict pyval) (iteration : list string)
    (k : string) (v : pyval) :
  (k, v) ∈ omap (bound_resource arguments) iteration ↔
    k ∈ iteration ∧ dict_get arguments (k +:+ "_name") = Some v.
Proof.
  rewrite list_elem_of_omap. unfold bound_resource. split.
  - intros (r & Hin & Hb).
    destruct (dict_get arguments (r +:+ "_name")) as [v'|] eqn:Hr; [|done].
    by injection Hb as -> ->.
  - intros [Hin Hk]. exists k. by rewrite Hk.
Qed.

Lemma bound_resources_keys (arguments : dict pyval) (iteration : list string) :
  NoDup iteration → NoDup (dict_keys (omap (bound_resource arguments) iteration)).
Proof.
  unfold dict_keys. induction 1 as [|r iteration Hr _ IH]; simpl;
    [apply NoDup_nil_2|].
  unfold bound_resource at 1.
  destruct (dict_get arguments (r +:+ "_name")) as [v|]; simpl; [|done].
  apply NoDup_cons. split; [|done].
  intros Hin. apply list_elem_of_fmap in Hin as ([k v'] & -> & Hin).
  apply elem_of_bound_resources in Hin as [? _]. done.
Qed.

(** The keyword arguments that [needs_scope] passes to [_check_scope]. *)
Lemma needs_scope_kwargs (arguments : dict pyval) (iteration : list string) :
  iteration ≡ₚ resources →
  (if dict_in "scope_filter" arguments
   then dict_set (bind_resources arguments iteration []) "scope_filter" PyNone
   else bind_resources arguments iteration [])
  = omap (bound_resource arguments) iteration
    ++ (if dict_in "scope_filter" arguments then [("scope_filter", PyNone)] else []).
Proof.
  intros Hperm.
  assert (Hnd : NoDup iteration).
  { rewrite Hperm. apply (bool_decide_unpack (NoDup _)). reflexivity. }
  rewrite (bind_resources_omap arguments iteration [] Hnd); [|done]. simpl.
  destruct (dict_in "scope_filter" arguments); [|by rewrite app_nil_r].
  apply dict_set_fresh. apply dict_get_None. unfold dict_keys.
  intros Hin. apply list_elem_of_fmap in Hin as ([k v] & Hk & Hin). simpl in Hk.
  subst k. apply elem_of_bound_resources in Hin as [Hin _].
  rewrite Hperm in Hin. revert Hin.
  apply (bool_decide_unpack (_ ∉ _)). reflexivity.
Qed.

Lemma get_scope_filter_no_http (db : orm.Session) (req_scope : string)
    (sub_scope : dict (list string)) (status_code : Z) (log_message : string) :
  _get_scope_filter db req_scope sub_scope ≠ Raise (HTTPError status_code log_message).
Proof.
  unfold _get_scope_filter, dict_getitem, mbind, result_bind.
  repeat case_match; congruence.
Qed.

Lemma check_scope_enumeration_kwargs (api_handler : handler) (req_scope : string)
    (kwargs1 kwargs2 : dict pyval) :
  dict_in "scope_filter" kwargs1 = true → dict_in "scope_filter" kwargs2 = true →
  _check_scope api_handler req_scope kwargs1
    = _check_scope api_handler req_scope kwargs2.
Proof.
  intros H1 H2. unfold _check_scope. by rewrite !dict_in_compose_server, H1, H2.
Qed.

(** X14.  When the decorator answers 403.  Whatever order the four
    resources are visited in, [needs_scope] raises the 403 error exactly in
    three cases: the model does not hold the required scope; the scope holds
    a filter map and the method binds none of the four resource arguments
    nor the enumeration marker; or the scope holds a filter map, the
    enumeration marker is bound, and the resolved set of names is empty.  A
    warning is logged exactly when the 403 error is raised. *)
Theorem needs_scope_forbidden_iff (scope : string) (iteration : list string)
    (self : decorated_handler) (arguments : dict pyval) :
  iteration ≡ₚ resources →
  ((needs_scope scope iteration self arguments).2 = Raise (forbidden scope) ↔
     parsed_scopes (handler_of self) !! scope = None
     ∨ ∃ sub_scope,
         parsed_scopes (handler_of self) !! scope = Some (Filtered sub_scope)
         ∧ if dict_in "scope_filter" arguments
           then _get_scope_filter (db (handler_of self)) scope sub_scope = Ok ∅
           else ∀ resource, resource ∈ resources →
                  dict_get arguments (resource +:+ "_name") = None)
  ∧ ((needs_scope scope iteration self arguments).1 ≠ [] ↔
     (needs_scope scope iteration self arguments).2 = Raise (forbidden scope)).
Proof.
  intros Hperm. unfold needs_scope.
  rewrite (needs_scope_kwargs arguments iteration Hperm).
  set (bound := omap (bound_resource arguments) iteration).
  assert (Hbound : bound = [] ↔
            ∀ resource, resource ∈ resources →
              dict_get arguments (resource +:+ "_name") = None).
  { split.
    - intros Hnil r Hr.
      destruct (dict_get arguments (r +:+ "_name")) as [v|] eqn:Hv; [|done].
      assert (Hin : (r, v) ∈ bound).
      { apply elem_of_bound_resources. by rewrite Hperm. }
      rewrite Hnil in Hin. by apply elem_of_nil in Hin.
    - intros Hnone. destruct bound as [|[k v] rest] eqn:Hb; [done|].
      assert (Hin : (k, v) ∈ bound) by (rewrite Hb; apply list_elem_of_here).
      apply elem_of_bound_resources in Hin as [Hk Hv].
      rewrite Hperm in Hk. by rewrite (Hnone k Hk) in Hv. }
  assert (Hmarker : dict_in "scope_filter" bound = false).
  { unfold dict_in.
    destruct (dict_get bound "scope_filter") as [v|] eqn:Hv; [|done].
    apply dict_get_elem_of, elem_of_bound_resources in Hv as [Hin _].
    rewrite Hperm in Hin. exfalso. revert Hin.
    apply (bool_decide_unpack (_ ∉ _)). reflexivity. }
  unfold _check_scope.
  destruct (parsed_scopes (handler_of self) !! scope) as [[|sub_scope]|] eqn:Hscope.
  - simpl. split; split; try done. intros [?|(f & ? & _)]; done.
  - rewrite dict_in_compose_server.
    destruct (dict_in "scope_filter" arguments) eqn:Ha.
    + replace (dict_in "scope_filter" (bound ++ [("scope_filter", PyNone)]))
        with true.
      2:{ unfold dict_in. rewrite dict_get_app. fold (dict_in "scope_filter" bound).
          unfold dict_in in Hmarker.
          by destruct (dict_get bound "scope_filter"). }
      destruct (_get_scope_filter _ _ _) as [names|e] eqn:Hget; simpl.
      * case_bool_decide as Hnames.
        -- split; split; try done.
           intros [?|(f & [= <-] & Hf)]; [done|].
           rewrite Hget in Hf. by injection Hf as ->.
        -- subst names. split; split; try done.
           intros _. right. by exists sub_scope.
      * assert (He : @Raise invocation e ≠ Raise (forbidden scope)).
        { intros [= ->]. by apply get_scope_filter_no_http in Hget. }
        split; split; try done.
        intros [?|(f & [= <-] & Hf)]; [done|]. by rewrite Hget in Hf.
    + rewrite app_nil_r, Hmarker.
      destruct (compose_server bound) as [|item items] eqn:Hc; simpl.
      * apply compose_server_nil in Hc. split; split; try done.
        intros _. right. exists sub_scope. split; [done|]. by apply Hbound.
      * assert (Hne : bound ≠ []).
        { intros Hnil. rewrite Hnil in Hc. done. }
        destruct (check_filters_allow_or_not_found (handler_of self) sub_scope
                    (item :: items)) as [Hr|Hr];
          simpl in Hr; rewrite Hr; simpl.
        -- split; split; try done.
           intros [?|(f & [= <-] & Hnone)]; [done|]. by apply Hbound in Hnone.
        -- split; split; try done.
           intros [?|(f & [= <-] & Hnone)]; [done|]. by apply Hbound in Hnone.
  - simpl. split; split; try done. intros _. by left.
Qed.

Lemma needs_scope_forbidden_iff_witness :
  (needs_scope "users" ["server"; "group"; "user"; "service"]
     {| handler_of := mk_handler [("users", Filtered [("user", ["alice"])])];
        raw_scopes := ["users!user=alice"];
        request_path := Some "/hub/api/info" |}
     [("self", PyNone)]).2 = Raise (forbidden "users")
  ∧ (needs_scope "users" ["server"; "group"; "user"; "service"]
     {| handler_of := mk_handler [("users", Filtered [("user", ["alice"])])];
        raw_scopes := ["users!user=alice"];
        request_path := Some "/hub/api/info" |}
     [("self", PyNone)]).1 ≠ [].
Proof.
  assert (Hperm : ["server"; "group"; "user"; "service"] ≡ₚ resources).
  { apply (bool_decide_unpack (_ ≡ₚ _)). reflexivity. }
  split.
  - apply (proj1 (needs_scope_forbidden_iff "users" _
                    {| handler_of := mk_handler [("users", Filtered [("user", ["alice"])])];
                       raw_scopes := ["users!user=alice"];
                       request_path := Some "/hub/api/info" |}
                    [("self", PyNone)] Hperm)).
    right. exists [("user", ["alice"])]. split; [reflexivity|]. simpl.
    intros resource Hin. apply list_elem_of_In in Hin. simpl in Hin.
    destruct Hin as [<-|[<-|[<-|[<-|[]]]]]; reflexivity.
  - apply (proj2 (needs_scope_forbidden_iff "users" _
                    {| handler_of := mk_handler [("users", Filtered [("user", ["alice"])])];
                       raw_scopes := ["users!user=alice"];
                       request_path := Some "/hub/api/info" |}
                    [("self", PyNone)] Hperm)).
    reflexivity.
Defined.

(** X15.  The order in which Python visits the set of the four resources
    does not change what the decorator does (the warning it logs, the call
    or the exception it ends with) when the method binds the enumeration
    marker, or when the identity store knows the user bound to
    [user_name]. *)
Theorem needs_scope_iteration_order (scope : string)
    (iteration1 iteration2 : list string) (self : decorated_handler)
    (arguments : dict pyval) :
  iteration1 ≡ₚ resources → iteration2 ≡ₚ resources →
  (dict_in "scope_filter" arguments = true
   ∨ ∀ user_name, dict_get arguments "user_name" = Some user_name →
       is_Some (find_user (handler_of self) user_name)) →
  needs_scope scope iteration1 self arguments
    = needs_scope scope iteration2 self arguments.
Proof.
  intros Hperm1 Hperm2 Hknown. unfold needs_scope.
  rewrite (needs_scope_kwargs arguments iteration1 Hperm1).
  rewrite (needs_scope_kwargs arguments iteration2 Hperm2).
  assert (Hperm : iteration1 ≡ₚ iteration2) by (by rewrite Hperm1, Hperm2).
  assert (Hnd : NoDup iteration1).
  { rewrite Hperm1. apply (bool_decide_unpack (NoDup _)). reflexivity. }
  destruct (dict_in "scope_filter" arguments) eqn:Hmarker.
  - rewrite (check_scope_enumeration_kwargs (handler_of self) scope
               (omap (bound_resource arguments) iteration1 ++ [("scope_filter", PyNone)])
               (omap (bound_resource arguments) iteration2 ++ [("scope_filter", PyNone)]));
      [done| |].
    + unfold dict_in. rewrite dict_get_app. simpl.
      by destruct (dict_get _ "scope_filter").
    + unfold dict_in. rewrite dict_get_app. simpl.
      by destruct (dict_get _ "scope_filter").
  - destruct Hknown as [?|Hknown]; [done|]. rewrite !app_nil_r.
    rewrite (check_scope_Permutation (handler_of self) scope
               (omap (bound_resource arguments) iteration1)
               (omap (bound_resource arguments) iteration2)); [done| | |].
    + by rewrite Hperm.
    + by apply bound_resources_keys.
    + intros sub_scope _ user_name Hin _. apply Hknown.
      apply elem_of_compose_server_user, elem_of_bound_resources in Hin as [_ Hin].
      done.
Qed.

Lemma needs_scope_iteration_order_witness :
  needs_scope "s" ["user"; "server"; "group"; "service"]
    {| handler_of :=
         mk_handler [("s", Filtered [("server", ["carol/web"]); ("group", ["staff"])])];
       raw_scopes := ["s!server=carol/web"; "s!group=staff"];
       request_path := None |}
    [("user_name", PyStr "carol"); ("server_name", PyStr "web")]
  = needs_scope "s" ["server"; "service"; "group"; "user"]
    {| handler_of :=
         mk_handler [("s", Filtered [("server", ["carol/web"]); ("group", ["staff"])])];
       raw_scopes := ["s!server=carol/web"; "s!group=staff"];
       request_path := None |}
    [("user_name", PyStr "carol"); ("server_name", PyStr "web")].
Proof.
  apply needs_scope_iteration_order.
  - reflexivity.
  - apply (bool_decide_unpack (_ ≡ₚ _)). reflexivity.
  - right. intros user_name [= <-]. by eexists.
Defined.

(** The same request, visited in two orders, when the identity store does
    not know the user: the decorator raises 404 or calls the method. *)
Example needs_scope_order_shows :
  (needs_scope "s" ["user"; "server"; "group"; "service"]
     {| handler_of := ghost_handler; raw_scopes := []; request_path := None |}
     [("user_name", PyStr "ghost"); ("server_name", PyStr "x")]).2
    = Raise not_found
  ∧ (needs_scope "s" ["server"; "user"; "group"; "service"]
     {| handler_of := ghost_handler; raw_scopes := []; request_path := None |}
     [("user_name", PyStr "ghost"); ("server_name", PyStr "x")]).2
    = Ok (Invoke None).
Proof. split; reflexivity. Qed.

(** ** Granting more scopes *)

Lemma parse_scopes_from_extends (l : list string) (m m' : gmap string scope_value)
    (n : string) (sub_scope : dict (list string)) :
  parse_scopes_from m l = Ok m' → m !! n = Some (Filtered sub_scope) →
  m' !! n = Some ALL
  ∨ ∃ sub_scope', m' !! n = Some (Filtered sub_scope')
      ∧ ∀ k values, dict_get sub_scope k = Some values →
          ∃ more, dict_get sub_scope' k = Some (values ++ more).
Proof.
  revert m sub_scope. induction l as [|scope l IH]; intros m sub_scope; simpl.
  - intros [= <-] Hn. right. exists sub_scope. split; [done|].
    intros k values Hk. exists []. by rewrite app_nil_r.
  - destruct (parse_scope_cases m scope) as (v & Heq & Hv).
    rewrite Heq. simpl. intros Hrest Hn.
    destruct (decide (n = base_scope_of scope)) as [->|Hne].
    + destruct Hv as [[_ ->]|[(_ & Hm & _)|[(_ & Hm & _)|(f & _ & Hm & ->)]]];
        try congruence.
      * left. eapply parse_scopes_from_keeps_ALL; [done|]. apply lookup_insert_eq.
      * rewrite Hn in Hm. injection Hm as <-.
        destruct (IH _ (record_clause sub_scope (filter_of scope)) Hrest
                    (lookup_insert_eq _ _ _)) as [?|(f' & Hf' & Hext)]; [by left|].
        right. exists f'. split; [done|]. intros k values Hk.
        destruct (record_clause_extends _ (filter_of scope) _ _ Hk) as [more1 H1].
        destruct (Hext _ _ H1) as [more2 H2].
        exists (more1 ++ more2). by rewrite app_assoc.
    + apply (IH _ sub_scope Hrest). by rewrite lookup_insert_ne.
Qed.

Lemma py_in_app_l (v : pyval) (l1 l2 : list string) :
  py_in v l1 = true → py_in v (l1 ++ l2) = true.
Proof.
  destruct v as [|s]; simpl; [done|]. rewrite !bool_decide_eq_true.
  intros ?. apply elem_of_app. by left.
Qed.

Lemma allowed_by_extends (api_handler : handler)
    (sub_scope sub_scope' : dict (list string)) (item : string * pyval) :
  (∀ k values, dict_get sub_scope k = Some values →
     ∃ more, dict_get sub_scope' k = Some (values ++ more)) →
  allowed_by api_handler sub_scope item = true →
  allowed_by api_handler sub_scope' item = true.
Proof.
  intros Hext. destruct item as [k v]. unfold allowed_by. simpl.
  rewrite !orb_true_iff, !andb_true_iff. intros [Hmatch|[Hneeds Hmeets]].
  - left. unfold filter_matches in *.
    destruct (dict_get sub_scope k) as [values|] eqn:Hk; [|done].
    destruct (Hext _ _ Hk) as [more ->]. by apply py_in_app_l.
  - apply needs_scope_expansion_iff in Hneeds as (-> & Hgroup & _).
    unfold dict_in in Hgroup.
    destruct (dict_get sub_scope "group") as [group_names|] eqn:Hg; [|done].
    destruct (Hext _ _ Hg) as [more Hg'].
    destruct (filter_matches sub_scope' "user" v) eqn:Hmatch; [by left|].
    right. split.
    + apply needs_scope_expansion_iff. unfold dict_in. rewrite Hg'.
      split_and!; [done..|]. unfold filter_matches in Hmatch.
      destruct (dict_get sub_scope' "user") as [users|]; [|by left].
      right. by exists users.
    + destruct (find_user api_handler v) as [user|]; [|done].
      rewrite Hg'. simpl in *. apply groups_meet_iff.
      apply groups_meet_iff in Hmeets as (g & Hg1 & Hg2).
      exists g. split; [|done]. apply elem_of_app. by left.
Qed.

(** X16.  Granting more scopes does not revoke access.  When the identity
    store knows the user of the [user] attribute, a single-resource check
    that allows under the model parsed from a list of granted scopes still
    allows under the model parsed from that list followed by further
    scopes. *)
Theorem grants_monotone (l more : list string) (h1 h2 : handler)
    (req_scope : string) (kwargs : dict pyval) :
  parse_scopes l = Ok (parsed_scopes h1) →
  parse_scopes (l ++ more) = Ok (parsed_scopes h2) →
  find_user h1 = find_user h2 →
  dict_in "scope_filter" kwargs = false →
  (∀ user_name, ("user", user_name) ∈ kwargs → is_Some (find_user h1 user_name)) →
  _check_scope h1 req_scope kwargs = Allow →
  _check_scope h2 req_scope kwargs = Allow.
Proof.
  intros H1 H2 Hfind Hmode Hknown Hallow. unfold parse_scopes in *.
  rewrite parse_scopes_from_app, H1 in H2. simpl in H2.
  unfold _check_scope in Hallow |- *.
  rewrite dict_in_compose_server, Hmode in *.
  destruct (parsed_scopes h1 !! req_scope) as [[|f]|] eqn:Hscope; [| |done].
  - by rewrite (parse_scopes_from_keeps_ALL _ _ _ _ H2 Hscope).
  - destruct (parse_scopes_from_extends _ _ _ _ _ H2 Hscope)
      as [->|(f' & -> & Hext)]; [done|].
    revert Hallow.
    destruct (compose_server kwargs) as [|item items] eqn:Hc; [done|].
    rewrite <- Hc.
    assert (Hk1 : ∀ sub_scope, users_known h1 sub_scope (compose_server kwargs)).
    { intros sub_scope u Hin _. by apply Hknown, elem_of_compose_server_user. }
    assert (Hk2 : ∀ sub_scope, users_known h2 sub_scope (compose_server kwargs)).
    { intros sub_scope u Hin _. rewrite <- Hfind.
      by apply Hknown, elem_of_compose_server_user. }
    rewrite !check_filters_users_known; [|done..].
    destruct (existsb (allowed_by h1 f) (compose_server kwargs)) eqn:He1; [|done].
    intros _. apply existsb_exists in He1 as (x & Hx & Hallowed).
    replace (existsb (allowed_by h2 f') (compose_server kwargs)) with true; [done|].
    symmetry. apply existsb_exists. exists x. split; [done|].
    apply (allowed_by_extends h2 f f' x Hext).
    revert Hallowed. unfold allowed_by. by rewrite Hfind.
Qed.

Lemma grants_monotone_witness :
  _check_scope
    (mk_handler [("s", Filtered [("server", ["carol/web"]); ("group", ["staff"])]);
                 ("t", ALL)])
    "s" [("user", PyStr "carol"); ("server", PyStr "web")] = Allow.
Proof.
  apply (grants_monotone ["s!server=carol/web"] ["s!group=staff"; "t"]
           (mk_handler [("s", Filtered [("server", ["carol/web"])])])
           (mk_handler [("s", Filtered [("server", ["carol/web"]); ("group", ["staff"])]);
                        ("t", ALL)])).
  - reflexivity.
  - vm_compute. reflexivity.
  - reflexivity.
  - reflexivity.
  - intros user_name Hin. apply list_elem_of_In in Hin. simpl in Hin.
    destruct Hin as [[= <-]|[[=]|[]]]. by eexists.
  - reflexivity.
Defined.

(** Without that hypothesis a further grant can turn an allowed request
    into a 404: the [group] filter makes the check look up the unknown
    user before it reaches the [server] attribute. *)
Example grant_revokes_for_unknown_user :
  _check_scope (mk_handler [("s", Filtered [("server", ["ghost/x"])])]) "s"
    ghost_user_first = Allow
  ∧ _check_scope ghost_handler "s" ghost_user_first = NotFoundOrForbidden.
Proof. split; reflexivity. Qed.

(** ** The group lookup and the server composition *)

(** X17.  [_check_user_in_expanded_scope] raises the 404 error exactly when
    the identity store does not know the user; for a known user it returns
    [True] exactly when one of the user's groups is among the given group
    names, so neither the order nor the repetitions of the names matter. *)
Theorem check_user_in_expanded_scope_spec (api_handler : handler)
    (user_name : pyval) (scope_group_names : list string) :
  (find_user api_handler user_name = None ↔
     _check_user_in_expanded_scope api_handler user_name scope_group_names
       = Raise not_found)
  ∧ (∀ user, find_user api_handler user_name = Some user →
       ∃ found,
         _check_user_in_expanded_scope api_handler user_name scope_group_names
           = Ok found
         ∧ (found = true ↔
              ∃ group, group ∈ orm.groups user
                       ∧ orm.name group ∈ scope_group_names)).
Proof.
  unfold _check_user_in_expanded_scope. split.
  - by destruct (find_user api_handler user_name).
  - intros user ->. eexists. split; [done|]. rewrite groups_meet_iff. split.
    + intros (g & Hg1 & Hg2). apply list_elem_of_fmap in Hg2 as (group & -> & ?).
      by exists group.
    + intros (group & Hin & Hname). exists (orm.name group). split; [done|].
      apply list_elem_of_fmap. by exists group.
Qed.

Lemma check_user_in_expanded_scope_spec_witness :
  ∃ found,
    _check_user_in_expanded_scope ghost_handler (PyStr "carol") ["staff"; "admins"]
      = Ok found
    ∧ (found = true ↔
         ∃ group, group ∈ [ {| orm.name := "admins" |} ]
                  ∧ orm.name group ∈ ["staff"; "admins"]).
Proof.
  apply (proj2 (check_user_in_expanded_scope_spec ghost_handler (PyStr "carol")
                  ["staff"; "admins"])
           {| orm.groups := [ {| orm.name := "admins" |} ] |}).
  reflexivity.
Defined.

(** X18.  A server grant is a grant for one owner.  When the filter map of
    the requested scope has the [server] key only, a request that names a
    user and a server, in either order, is allowed exactly when the
    composed name [user/server] is among the granted servers, and raises the
    404 error otherwise; the bare server name is never what is compared. *)
Theorem check_scope_server_grant (api_handler : handler) (req_scope : string)
    (servers : list string) (user server : pyval) :
  parsed_scopes api_handler !! req_scope = Some (Filtered [("server", servers)]) →
  _check_scope api_handler req_scope [("user", user); ("server", server)]
    = (if bool_decide ((py_str user +:+ "/" +:+ py_str server) ∈ servers)
       then Allow else NotFoundOrForbidden)
  ∧ _check_scope api_handler req_scope [("server", server); ("user", user)]
    = (if bool_decide ((py_str user +:+ "/" +:+ py_str server) ∈ servers)
       then Allow else NotFoundOrForbidden).
Proof.
  intros Hscope. unfold _check_scope. rewrite Hscope.
  split; simpl; unfold filter_matches; simpl; by case_bool_decide.
Qed.

Lemma check_scope_server_grant_witness :
  _check_scope (mk_handler [("s", Filtered [("server", ["web"])])]) "s"
    [("user", PyStr "alice"); ("server", PyStr "web")]
    = (if bool_decide (("alice" +:+ "/" +:+ "web") ∈ ["web"])
       then Allow else NotFoundOrForbidden)
  ∧ _check_scope (mk_handler [("s", Filtered [("server", ["web"])])]) "s"
    [("server", PyStr "web"); ("user", PyStr "alice")]
    = (if bool_decide (("alice" +:+ "/" +:+ "web") ∈ ["web"])
       then Allow else NotFoundOrForbidden).
Proof.
  apply (check_scope_server_grant
           (mk_handler [("s", Filtered [("server", ["web"])])]) "s" ["web"]
           (PyStr "alice") (PyStr "web")).
  reflexivity.
Defined.
